(** * cityweftapp: the 3D preview component (ModelPreview)

    A shallow embedding of the geometry-to-scene mapping and of the
    environmental overlays of [ModelPreview.tsx], with the properties the
    specification states about them.

    Conventions of the embedding.
    - JavaScript numbers are rationals ([Q]); only comparisons and the four
      operations are used on them, the transcendental functions of [Math] and
      the sun calculator are parameters of the sections that need them.
      Non-finite numbers (NaN, the infinities) are outside the model.
    - JavaScript strings are [string]s whose characters are read as the code
      units 0..255 (Latin-1).
    - An optional field of an object ([x?: number]) is an [option].
    - A React effect is a function from the values it reads to the new
      values of the refs and state cells it writes.
    - The three.js scene graph is kept as far as the overlays touch it: node
      kind, [visible] flag and children. *)

From Stdlib Require Import ZArith QArith Qround String Ascii List Lia.
From stdpp Require Import gmap strings pretty.

Local Open Scope string_scope.
Local Open Scope list_scope.

(** ** JavaScript primitives used by the component *)

Module JS.

(** [String.prototype.toLowerCase] on one code unit below 256: the ASCII
    capitals and the Latin-1 capitals U+00C0..U+00DE (without the
    multiplication sign U+00D7) move up by 32. *)
Definition lowerCode (n : N) : N :=
  if ((65 <=? n) && (n <=? 90))%N then (n + 32)%N
  else if ((192 <=? n) && (n <=? 222) && negb (n =? 215))%N then (n + 32)%N
  else n.

Definition lowerChar (c : ascii) : ascii := ascii_of_N (lowerCode (N_of_ascii c)).

Fixpoint toLowerCase (s : string) : string :=
  match s with
  | EmptyString => EmptyString
  | String c r => String (lowerChar c) (toLowerCase r)
  end.

(** White space and line terminators of ECMAScript below 256: TAB, LF, VT,
    FF, CR, SP and NBSP. *)
Definition isWhiteSpace (c : ascii) : bool :=
  let n := N_of_ascii c in
  (((9 <=? n) && (n <=? 13)) || (n =? 32) || (n =? 160))%N.

Fixpoint trimStart (s : string) : string :=
  match s with
  | EmptyString => EmptyString
  | String c r => if isWhiteSpace c then trimStart r else s
  end.

Fixpoint trimEnd (s : string) : string :=
  match s with
  | EmptyString => EmptyString
  | String c r =>
      match trimEnd r with
      | EmptyString => if isWhiteSpace c then EmptyString else String c EmptyString
      | r' => String c r'
      end
  end.

Definition trim (s : string) : string := trimEnd (trimStart s).

(** [hay.includes(needle)] on strings. *)
Fixpoint includes (needle hay : string) : bool :=
  String.prefix needle hay ||
  match hay with
  | EmptyString => false
  | String _ r => includes needle r
  end.

(** [arr.includes(x)] on an array of strings (strict equality). *)
Definition arrayIncludes (arr : list string) (x : string) : bool :=
  existsb (String.eqb x) arr.

(** [a || d] for an optional string: [undefined] and [""] are falsy. *)
Definition strOr (a : option string) (d : string) : string :=
  match a with
  | Some EmptyString | None => d
  | Some s => s
  end.

(** [a || d] for an optional number: [undefined] and [0] are falsy. *)
Definition numOr (a : option Q) (d : Q) : Q :=
  match a with
  | Some v => if Qeq_bool v 0 then d else v
  | None => d
  end.

(** [Math.max] and [Math.min] of two numbers. *)
Definition Math_max (a b : Q) : Q := if Qle_bool a b then b else a.
Definition Math_min (a b : Q) : Q := if Qle_bool a b then a else b.

(** [Math.floor]. *)
Definition Math_floor (a : Q) : Z := Qfloor a.

End JS.

(** ** Shared geometry: vectors and bounding boxes *)

Record Vector3 := mkVector3 { vx : Q; vy : Q; vz : Q }.

(** ** Instance synthesizer: the node branch of the geometry effect *)

Module Synth.
Import JS.
Local Open Scope Q_scope.

(** A point descriptor of the API payload; every field may be absent. *)
Record Node := mkNode {
  instanceType : option string;
  type : option string;
  x : option Q;
  y : option Q;
  z : option Q;
  scale : option Q
}.

Record Instance := mkInstance {
  position : Vector3;
  inst_scale : Vector3;
  color : string
}.

Definition knownNonTreeTypes : list string :=
  ["shrubbery"; "utilitypole"; "bench"; "hydrant"; "rock"; "illustration";
   "adcolumn"; "ac_unit"].

(** [COLORS.infrastructure], read with a string key. *)
Definition COLORS_infrastructure : gmap string string :=
  <["tree" := "#228B22"]> (<["shrubbery" := "#8FBC8F"]> (<["bench" := "#A0522D"]>
  (<["utilityPole" := "#696969"]> (<["default" := "#AAAAAA"]> ∅)))).

Definition rawTypeOf (node : Node) : string :=
  strOr (instanceType node) (strOr (type node) "default").

(** [rawType.toLowerCase().trim()] *)
Definition normalize (rawType : string) : string := trim (toLowerCase rawType).

Definition isTree (nodeType : string) : bool :=
  includes "tree" nodeType || negb (arrayIncludes knownNonTreeTypes nodeType).

(** The [category] variable of the non-tree branch. *)
Definition categoryOf (nodeType : string) : string :=
  if arrayIncludes ["shrubbery"; "utilitypole"; "bench"] nodeType then
    if String.eqb nodeType "utilitypole" then "utilityPole" else nodeType
  else "default".

(** The outcome of the classification of one normalized tag: the tree
    branch, or the non-tree branch with its batch key. *)
Inductive Classification :=
| tree
| nonTree (category : string).

Definition classifyTag (nodeType : string) : Classification :=
  if isTree nodeType then tree else nonTree (categoryOf nodeType).

(** The classifier on a raw tag as the API sends it. *)
Definition classify (rawType : string) : Classification :=
  classifyTag (normalize (strOr (Some rawType) "default")).

Definition infraColor (nodeType rawType : string) : string :=
  match COLORS_infrastructure !! nodeType with
  | Some c => c
  | None =>
      match COLORS_infrastructure !! rawType with
      | Some c => c
      | None => "#AAAAAA"
      end
  end.

(** The instances one node pushes, each with the key of the batch
    ([instances[key].push(...)]) it is pushed to, in program order. *)
Definition synthesize (node : Node) : list (string * Instance) :=
  let x := numOr (x node) 0 in
  let y := numOr (y node) 0 in
  let z := numOr (z node) 0 in
  let scale := numOr (scale node) 1 in
  let rawType := rawTypeOf node in
  let nodeType := normalize rawType in
  match classifyTag nodeType with
  | tree =>
      let treeScale := Math_max scale 1 in
      [ ("tree_trunk",
         mkInstance (mkVector3 x y z)
           (mkVector3 (treeScale * 0.0625) (treeScale * 0.125) (treeScale * 0.0625))
           "#5D4037");
        ("tree_foliage",
         mkInstance (mkVector3 x (y + treeScale * 0.156) z)
           (mkVector3 (treeScale * 0.156) (treeScale * 0.156) (treeScale * 0.156))
           "#228B22") ]
  | nonTree category =>
      let finalScale := Math_max scale 1 * 0.5 in
      [ (category,
         mkInstance (mkVector3 x y z)
           (mkVector3 finalScale finalScale finalScale)
           (infraColor nodeType rawType)) ]
  end.

(** The keys of the six batches the effect declares before the loop. *)
Definition batchKeys : list string :=
  ["tree_trunk"; "tree_foliage"; "shrubbery"; "utilityPole"; "bench"; "default"].

(** Every declared batch is there. *)
Definition hasBatches (m : gmap string (list Instance)) : Prop :=
  Forall (fun key => is_Some (m !! key)) batchKeys.

Definition emptyInstances : gmap string (list Instance) :=
  <["tree_trunk" := []]> (<["tree_foliage" := []]> (<["shrubbery" := []]>
  (<["utilityPole" := []]> (<["bench" := []]> (<["default" := []]> ∅))))).

(** [instances[key].push(item)]; reading a missing batch gives [undefined]
    and the call throws, which is [None] here. *)
Definition push (acc : gmap string (list Instance)) (e : string * Instance)
  : option (gmap string (list Instance)) :=
  match acc !! e.1 with
  | Some items => Some (<[e.1 := items ++ [e.2]]> acc)
  | None => None
  end.

Definition pushAll (acc : option (gmap string (list Instance)))
    (es : list (string * Instance)) : option (gmap string (list Instance)) :=
  foldl (fun acc e => acc ≫= fun m => push m e) acc es.

(** [geomData.nodes.forEach(...)] *)
Definition ingestNodes (nodes : list Node) (acc : gmap string (list Instance))
  : option (gmap string (list Instance)) :=
  foldl (fun acc node => pushAll acc (synthesize node)) (Some acc) nodes.

(** The layer a batch is attached to. *)
Definition layerOfCategory (category : string) : string :=
  if arrayIncludes ["tree_trunk"; "tree_foliage"; "shrubbery"] category
  then "vegetation" else "infrastructure".

(** A node record without any field, and the two instances of the tree
    of base size standing at the origin. *)
Definition bareNode : Node := mkNode None None None None None None.
Definition bareTrunk : Instance :=
  mkInstance (mkVector3 0 0 0) (mkVector3 0.0625 0.125 0.0625) "#5D4037".
Definition bareFoliage : Instance :=
  mkInstance (mkVector3 0 0.156 0) (mkVector3 0.156 0.156 0.156) "#228B22".

End Synth.

(** ** Layer manager: the visibility state and the layer-visibility effect *)

Module Layers.
Import JS.

(** A child of a layer group: its [visible] flag, [userData.subtype] and
    the identity of its geometry buffer. *)
Record Child := mkChild {
  visible : bool;
  subtype : option string;
  geometry : nat
}.

Record Group := mkGroup {
  group_visible : bool;
  children : list Child
}.

(** [layerVisibility.surface]: the group flag and one flag per subtype. *)
Record SurfaceVisibility := mkSurface {
  _group : bool;
  sublayers : gmap string bool
}.

Record LayerVisibility := mkLayerVisibility {
  buildings : bool;
  surface : SurfaceVisibility;
  vegetation : bool;
  infrastructure : bool;
  barriers : bool;
  topography : bool
}.

(** The keys of [COLORS.surface], which are also the subtype keys of the
    initial visibility state. *)
Definition surfaceKeys : list string :=
  ["roadway"; "asphalt"; "roadwayIntersection"; "roadwayArea"; "pavement";
   "footway"; "water"; "grass"; "manicuredGrass"; "farmland"; "sand"; "rock";
   "pitch"; "helipad"; "forest"; "garden"; "construction";
   "buildingConstruction"; "shrubbery"; "default"].

Definition initialVisibility : LayerVisibility :=
  mkLayerVisibility true
    (mkSurface true (foldr (fun k m => <[k := true]> m) ∅ surfaceKeys))
    true true true true.

(** A value of [Object.entries(layerVisibility)]: a boolean, or the
    surface object. *)
Inductive Visible :=
| VBool (b : bool)
| VObject (s : SurfaceVisibility).

Definition entries (lv : LayerVisibility) : list (string * Visible) :=
  [ ("buildings", VBool (buildings lv));
    ("surface", VObject (surface lv));
    ("vegetation", VBool (vegetation lv));
    ("infrastructure", VBool (infrastructure lv));
    ("barriers", VBool (barriers lv));
    ("topography", VBool (topography lv)) ].

(** [(visible as any)[type]]; [None] is [undefined]. *)
Definition surfaceGet (s : SurfaceVisibility) (key : string) : option bool :=
  if String.eqb key "_group" then Some (_group s) else sublayers s !! key.

Definition isSubVisible (s : SurfaceVisibility) (child : Child) : bool :=
  let type := strOr (subtype child) "default" in
  match surfaceGet s type with
  | Some b => b
  | None => true
  end.

Definition setChildVisible (s : SurfaceVisibility) (child : Child) : Child :=
  mkChild (isSubVisible s child) (subtype child) (geometry child).

(** What the body of the [forEach] does to the group of its key. *)
Definition groupAfter (e : string * Visible) (group : Group) : Group :=
  match e.2 with
  | VObject s =>
      if String.eqb e.1 "surface" then
        mkGroup (_group s) (map (setChildVisible s) (children group))
      else
        (* [group.visible = visible as boolean] with a truthy object *)
        mkGroup true (children group)
  | VBool b => mkGroup b (children group)
  end.

(** The body of the [forEach] over the entries, on the layer groups of
    [layerGroupsRef.current]: nothing happens for a key without group. *)
Definition applyEntry (groups : gmap string Group) (e : string * Visible)
  : gmap string Group :=
  match groups !! e.1 with
  | None => groups
  | Some group => <[e.1 := groupAfter e group]> groups
  end.

(** What a sequence of entries does to the group stored under [key]. *)
Definition groupAfterAll (key : string) (es : list (string * Visible)) (group : Group)
  : Group :=
  foldl (fun g e => if decide (key = e.1) then groupAfter e g else g) group es.

(** The layer-visibility effect. *)
Definition applyVisibility (lv : LayerVisibility) (groups : gmap string Group)
  : gmap string Group :=
  foldl applyEntry groups (entries lv).

(** The rows of the layer panel. *)
Inductive LayerId :=
| id_buildings | id_surface | id_vegetation
| id_infrastructure | id_barriers | id_topography.

(** The eye button of a layer row. *)
Definition toggleLayer (id : LayerId) (prev : LayerVisibility) : LayerVisibility :=
  match id with
  | id_surface =>
      mkLayerVisibility (buildings prev)
        (mkSurface (negb (_group (surface prev))) (sublayers (surface prev)))
        (vegetation prev) (infrastructure prev) (barriers prev) (topography prev)
  | id_buildings =>
      mkLayerVisibility (negb (buildings prev)) (surface prev)
        (vegetation prev) (infrastructure prev) (barriers prev) (topography prev)
  | id_vegetation =>
      mkLayerVisibility (buildings prev) (surface prev)
        (negb (vegetation prev)) (infrastructure prev) (barriers prev) (topography prev)
  | id_infrastructure =>
      mkLayerVisibility (buildings prev) (surface prev)
        (vegetation prev) (negb (infrastructure prev)) (barriers prev) (topography prev)
  | id_barriers =>
      mkLayerVisibility (buildings prev) (surface prev)
        (vegetation prev) (infrastructure prev) (negb (barriers prev)) (topography prev)
  | id_topography =>
      mkLayerVisibility (buildings prev) (surface prev)
        (vegetation prev) (infrastructure prev) (barriers prev) (negb (topography prev))
  end.

(** The button of a surface subtype row:
    [{...prev.surface, [subKey]: !prev.surface[subKey]}]. *)
Definition toggleSublayer (subKey : string) (prev : LayerVisibility) : LayerVisibility :=
  let s := surface prev in
  let flipped := negb (default false (surfaceGet s subKey)) in
  mkLayerVisibility (buildings prev)
    (if String.eqb subKey "_group" then mkSurface flipped (sublayers s)
     else mkSurface (_group s) (<[subKey := flipped]> (sublayers s)))
    (vegetation prev) (infrastructure prev) (barriers prev) (topography prev).

Definition layerIsVisible (id : LayerId) (lv : LayerVisibility) : bool :=
  match id with
  | id_buildings => buildings lv
  | id_surface => _group (surface lv)
  | id_vegetation => vegetation lv
  | id_infrastructure => infrastructure lv
  | id_barriers => barriers lv
  | id_topography => topography lv
  end.

(** three.js draws an object only when it and its ancestors are visible:
    a child of a layer group is drawn when both flags are set. *)
Definition drawn (group : Group) (child : Child) : bool :=
  group_visible group && visible child.

(** The primitives drawn, by layer. *)
Definition visiblePrimitives (groups : gmap string Group) : gmap string (list nat) :=
  (fun group => map geometry (filter (fun c => drawn group c = true) (children group)))
    <$> groups.

(** The geometry buffers held by the layers, whatever their flags. *)
Definition geometryOf (groups : gmap string Group) : gmap string (list nat) :=
  (fun group => map geometry (children group)) <$> groups.

(** A surface layer with a footway mesh and a mesh of a subtype without
    flag, and the state where the footway button was pressed once. *)
Definition footwayMesh : Child := mkChild true (Some "footway") 1.
Definition plazaMesh : Child := mkChild true (Some "plaza") 2.
Definition surfaceOnly : gmap string Group :=
  {[ "surface" := mkGroup true [footwayMesh; plazaMesh] ]}.
Definition footwayOff : LayerVisibility := toggleSublayer "footway" initialVisibility.

End Layers.

(** ** Scene graph and bounding boxes (the part of three.js the effects use) *)

Module Scene3D.
Import JS.
Local Open Scope Q_scope.
Local Set Warnings "-register-all".

(** [THREE.Box3]; three.js keeps the empty box as min = +inf, max = -inf. *)
Inductive Box3 :=
| EmptyBox
| Box (min max : Vector3).

Definition isEmpty (b : Box3) : bool :=
  match b with
  | EmptyBox => true
  | Box mn mx =>
      negb (Qle_bool (vx mn) (vx mx)) || negb (Qle_bool (vy mn) (vy mx))
      || negb (Qle_bool (vz mn) (vz mx))
  end.

Definition union (a b : Box3) : Box3 :=
  match a, b with
  | EmptyBox, _ => b
  | _, EmptyBox => a
  | Box mn1 mx1, Box mn2 mx2 =>
      Box (mkVector3 (Math_min (vx mn1) (vx mn2)) (Math_min (vy mn1) (vy mn2))
                     (Math_min (vz mn1) (vz mn2)))
          (mkVector3 (Math_max (vx mx1) (vx mx2)) (Math_max (vy mx1) (vy mx2))
                     (Math_max (vz mx1) (vz mx2)))
  end.

(** [getSize] and [getCenter] answer the zero vector on an empty box. *)
Definition getSize (b : Box3) : Vector3 :=
  match b with
  | Box mn mx =>
      if isEmpty b then mkVector3 0 0 0
      else mkVector3 (vx mx - vx mn) (vy mx - vy mn) (vz mx - vz mn)
  | EmptyBox => mkVector3 0 0 0
  end.

Definition getCenter (b : Box3) : Vector3 :=
  match b with
  | Box mn mx =>
      if isEmpty b then mkVector3 0 0 0
      else mkVector3 ((vx mn + vx mx) * 0.5) ((vy mn + vy mx) * 0.5)
                     ((vz mn + vz mx) * 0.5)
  | EmptyBox => mkVector3 0 0 0
  end.

(** The mesh group of the geometry effect, as the overlays see it: the
    world-space boxes of its descendants that carry geometry (meshes and
    instanced batches). The six layer groups carry none themselves. *)
Definition MeshGroup := list Box3.

(** [new THREE.Box3().setFromObject(meshGroup)] *)
Definition setFromObject (g : MeshGroup) : Box3 := foldl union EmptyBox g.

(** The mesh group built from a payload whose [geometry] array is empty
    (or holds only empty meshes): six layer groups without children. *)
Definition emptyMeshGroup : MeshGroup := [].

Inductive Kind :=
| KGroup | KMesh | KLine | KSprite | KArrowHelper.

(** A node of the scene graph added by an overlay. *)
Inductive Object3D :=
| Object (kind : Kind) (visible : bool) (children : list Object3D).

Definition obj_kind (o : Object3D) : Kind := let 'Object k _ _ := o in k.
Definition obj_visible (o : Object3D) : bool := let 'Object _ v _ := o in v.
Definition obj_children (o : Object3D) : list Object3D := let 'Object _ _ c := o in c.

(** [o.visible = v] *)
Definition setVisible (v : bool) (o : Object3D) : Object3D :=
  let 'Object k _ c := o in Object k v c.

Fixpoint nodeCount (o : Object3D) : nat :=
  let 'Object _ _ c := o in
  S ((fix sum (l : list Object3D) : nat :=
        match l with
        | [] => O
        | o' :: l' => (nodeCount o' + sum l')%nat
        end) c).

Definition leaf (k : Kind) : Object3D := Object k true [].

(** The helper objects of the overlays that are children of the scene.
    A helper is a child of the scene exactly while its flag is set; the
    object itself is the one held by the corresponding ref. *)
Record Scene := mkScene {
  solarAttached : bool;
  windAttached : bool;
  mapAttached : bool;
  background : string * string
}.

Definition defaultBackground : string * string := ("#3b82f6", "#e0f2fe").

(** [new THREE.Scene()] of the geometry effect, before any overlay ran. *)
Definition newScene : Scene := mkScene false false false defaultBackground.

Record SunLight := mkSunLight {
  castShadow : bool;
  shadowCameraSize : Q
}.

(** The refs of the component the overlays read and write. *)
Record Refs := mkRefs {
  sceneRef : option Scene;
  meshGroupRef : option MeshGroup;
  sunLightRef : option SunLight;
  solarHelperRef : option Object3D;
  windHelperRef : option Object3D;
  mapGroupRef : option Object3D
}.

Definition attachedCount (attached : bool) (ref : option Object3D) : nat :=
  match ref with
  | Some o => if attached then nodeCount o else O
  | None => O
  end.

(** Number of overlay nodes in the scene graph of [sceneRef.current]. *)
Definition overlayNodes (r : Refs) : nat :=
  match sceneRef r with
  | None => O
  | Some s =>
      (attachedCount (solarAttached s) (solarHelperRef r)
       + attachedCount (windAttached s) (windHelperRef r)
       + attachedCount (mapAttached s) (mapGroupRef r))%nat
  end.

(** The refs after the geometry effect ran on a payload: a fresh scene
    and mesh group; the helper refs are not touched. *)
Definition afterGeometryEffect (g : MeshGroup) (r : Refs) : Refs :=
  mkRefs (Some newScene) (Some g) (Some (mkSunLight true 300))
         (solarHelperRef r) (windHelperRef r) (mapGroupRef r).

Definition noRefs : Refs := mkRefs None None None None None None.

End Scene3D.

(** ** The payload and the climate service, as far as the component reads them *)

Record MeshData := mkMeshData {
  vertices : option (list Q);
  descriptor_pathType : option string;
  descriptor_type : option string
}.

Record GeometryData := mkGeometryData {
  layerType : string;
  geometryType : string;
  meshes : option (list MeshData);
  nodes : option (list Synth.Node)
}.

Record ApiResponse := mkApiResponse {
  origin : option (Q * Q);
  geometry : list GeometryData
}.

(** The mesh group the geometry effect builds from a payload. *)
Module Ingest.
Import JS Scene3D.
Local Open Scope Q_scope.

(** The positions of a flat vertex buffer, three numbers each. *)
Fixpoint pointsOf (vs : list Q) : list Vector3 :=
  match vs with
  | a :: b :: c :: rest => mkVector3 a b c :: pointsOf rest
  | _ => []
  end.

Definition expandByPoint (b : Box3) (p : Vector3) : Box3 := union b (Box p p).

(** [meshGroup.rotation.y = Math.PI / 2], taken as an exact quarter turn:
    the point (a, b, c) of the data stands at (c, b, -a) in the scene. *)
Definition toWorld (p : Vector3) : Vector3 := mkVector3 (vz p) (vy p) (- vx p).

(** The mesh branch: one mesh object for each mesh whose vertex list is
    present and not empty. *)
Definition meshBoxes (g : GeometryData) : list Box3 :=
  if String.eqb (geometryType g) "meshes" then
    match meshes g with
    | Some ms =>
        flat_map (fun m =>
          match vertices m with
          | None | Some [] => []
          | Some vs => [foldl expandByPoint EmptyBox (map toWorld (pointsOf vs))]
          end) ms
    | None => []
    end
  else [].

Definition nodesOf (g : GeometryData) : list Synth.Node :=
  if String.eqb (geometryType g) "nodes" then
    match nodes g with
    | Some ns => ns
    | None => []
    end
  else [].

Section WithInstancedBounds.
(** The world-space box of an instanced batch. It depends on the base
    shape and on the random yaw of each instance. *)
Variable instancedBox : string -> list Synth.Instance -> Box3.

(** One instanced mesh for each batch that is not empty. *)
Definition batchBoxes (instances : gmap string (list Synth.Instance)) : list Box3 :=
  flat_map (fun category =>
    match instances !! category with
    | None | Some [] => []
    | Some items => [instancedBox category items]
    end) Synth.batchKeys.

(** [None] when the node loop throws. *)
Definition meshGroupOf (payload : ApiResponse) : option MeshGroup :=
  instances ← Synth.ingestNodes (flat_map nodesOf (geometry payload))
                                Synth.emptyInstances;
  Some (flat_map meshBoxes (geometry payload) ++ batchBoxes instances).
End WithInstancedBounds.

End Ingest.

Record ClimateSample := mkClimateSample {
  temperature : Q;
  windSpeed : Q;
  windDirection : Q
}.

Record ClimateData := mkClimateData {
  current : ClimateSample;
  hourly : list ClimateSample
}.

(** [geometryData?.origin] *)
Definition originOf (geometryData : option ApiResponse) : option (Q * Q) :=
  match geometryData with
  | Some g => origin g
  | None => None
  end.

(** ** Environmental overlays: wind field, sun study, solar path *)

Module Overlays.
Import JS Scene3D.
Local Open Scope Q_scope.

Definition Qgt_bool (a b : Q) : bool := negb (Qle_bool a b).
Definition Qlt_bool (a b : Q) : bool := negb (Qle_bool b a).

(** [Math.round]: the nearest integer, ties upwards. *)
Definition Math_round (a : Q) : Z := Qfloor (a + 0.5).

(** [arr[i]] with a number that may be negative. *)
Definition at_index {A} (arr : list A) (i : Z) : option A :=
  if (i <? 0)%Z then None else nth_error arr (Z.to_nat i).

(** [scene.remove(ref.current); ...dispose...; ref.current = null] *)
Definition detachWind (s : Scene) : Scene :=
  mkScene (solarAttached s) false (mapAttached s) (background s).
Definition attachWind (s : Scene) : Scene :=
  mkScene (solarAttached s) true (mapAttached s) (background s).
Definition detachSolar (s : Scene) : Scene :=
  mkScene false (windAttached s) (mapAttached s) (background s).
Definition attachSolar (s : Scene) : Scene :=
  mkScene true (windAttached s) (mapAttached s) (background s).
Definition setBackground (bg : string * string) (s : Scene) : Scene :=
  mkScene (solarAttached s) (windAttached s) (mapAttached s) bg.

(** *** Wind field *)

(** The sample the arrows show: [hourly[round(timeOfDay) % 24] || current]. *)
Definition currentHourData (climate : ClimateData) (timeOfDay : Q) : ClimateSample :=
  let hourIndex := Z.rem (Math_round timeOfDay) 24 in
  match at_index (hourly climate) hourIndex with
  | Some d => d
  | None => current climate
  end.

Definition cols : nat := 6.
Definition rows : nat := 6.

(** The two nested loops over the grid: one arrow per cell. *)
Definition windArrows : list Object3D :=
  flat_map (fun i => map (fun j => leaf KArrowHelper) (seq 0 rows)) (seq 0 cols).

Definition windEffect (isClimateEnabled : bool) (climateData : option ClimateData)
    (timeOfDay : Q) (r : Refs) : Refs :=
  match sceneRef r, climateData, meshGroupRef r with
  | Some scene, Some climate, Some meshGroup =>
      (* clean up the old helper *)
      let scene1 :=
        match windHelperRef r with
        | Some _ => detachWind scene
        | None => scene
        end in
      if isClimateEnabled then
        let data := currentHourData climate timeOfDay in
        (* the box places the arrows; it is not tested for emptiness *)
        let box := setFromObject meshGroup in
        let group := Object KGroup true windArrows in
        mkRefs (Some (attachWind scene1)) (meshGroupRef r) (sunLightRef r)
               (solarHelperRef r) (Some group) (mapGroupRef r)
      else
        mkRefs (Some scene1) (meshGroupRef r) (sunLightRef r)
               (solarHelperRef r) None (mapGroupRef r)
  | _, _, _ => r
  end.

(** *** Sun position *)

(** A [Date]: the calendar day and the wall-clock fields the effects set. *)
Record Date := mkDate {
  day : Z;
  hours : Z;
  minutes : Z;
  seconds : Q
}.

Definition setHours (h : Z) (d : Date) : Date :=
  mkDate (day d) h (minutes d) (seconds d).
Definition setMinutes (m : Q) (d : Date) : Date :=
  mkDate (day d) (hours d) (Qfloor m) (seconds d).

(** [h % 1] for a number that is not negative. *)
Definition frac (h : Q) : Q := h - inject_Z (Qfloor h).

(** [date.setHours(Math.floor(h)); date.setMinutes((h % 1) * 60)] *)
Definition atHour (h : Q) (d : Date) : Date :=
  setMinutes (frac h * 60) (setHours (Math_floor h) d).

Record SunPosition := mkSunPosition {
  altitude : Q;
  azimuth : Q
}.

(** [for (let h = 4; h <= 20; h += 0.25)]: the values of [h], with a
    bound on the number of iterations. *)
Fixpoint hoursFrom (fuel : nat) (h : Q) : list Q :=
  match fuel with
  | O => []
  | S fuel' => if Qle_bool h 20 then h :: hoursFrom fuel' (h + 0.25) else []
  end.

Definition sampleHours : list Q := hoursFrom 100 4.

Section WithSunCalc.
(** [SunCalc.getPosition(date, lat, lon)] *)
Variable getPosition : Date -> Q -> Q -> SunPosition.

(** The dates of the arc whose sun position passes the test
    [pos.altitude > -0.1], in the order of the loop. Each becomes one
    entry of [pathPoints]. *)
Definition keptSamples (now : Date) (lat lon : Q) : list Date :=
  List.filter (fun d => Qgt_bool (altitude (getPosition d lat lon)) (-0.1))
              (map (fun h => atHour h now) sampleHours).

(** The ground compass: three rings, two cardinal lines, four labels. *)
Definition compassGroup : Object3D :=
  Object KGroup true
    (map (fun _ => leaf KMesh) [0.5; 0.75; 1.0]
     ++ [leaf KLine; leaf KLine]
     ++ map (fun _ => leaf KSprite) ["N"; "S"; "E"; "W"])%list.

(** The arc: the points of the line that is added to the helper, if any
    ([if (pathPoints.length > 1)]). *)
Definition pathLine (now : Date) (lat lon : Q) : option (list Date) :=
  let pathPoints := keptSamples now lat lon in
  if (1 <? length pathPoints)%nat then Some pathPoints else None.

(** The helper group: compass, arc, sun ball and beam. *)
Definition solarHelper (now : Date) (lat lon : Q) : Object3D :=
  Object KGroup true
    ([compassGroup]
     ++ match pathLine now lat lon with
        | Some _ => [leaf KLine]
        | None => []
        end
     ++ [leaf KMesh; leaf KLine])%list.

Definition solarPathEffect (showSolarPath : bool) (timeOfDay : Q)
    (geometryData : option ApiResponse) (now : Date) (r : Refs) : Refs :=
  match sceneRef r, meshGroupRef r with
  | Some scene, Some meshGroup =>
      (* clean up the old helper, always first *)
      let scene1 :=
        match solarHelperRef r with
        | Some _ => detachSolar scene
        | None => scene
        end in
      match showSolarPath, originOf geometryData with
      | true, Some (lat, lon) =>
          let box := setFromObject meshGroup in
          let group := solarHelper now lat lon in
          mkRefs (Some (attachSolar scene1)) (meshGroupRef r) (sunLightRef r)
                 (Some group) (windHelperRef r) (mapGroupRef r)
      | _, _ =>
          mkRefs (Some scene1) (meshGroupRef r) (sunLightRef r)
                 None (windHelperRef r) (mapGroupRef r)
      end
  | _, _ => r
  end.

(** *** Sun study *)

Definition maxDim3 (size : Vector3) : Q :=
  Math_max (Math_max (vx size) (vy size)) (vz size).

Definition skyColors (alt : Q) : string * string :=
  let isNight := Qlt_bool alt (-0.1) in
  let isDusk := Qlt_bool alt 0.1 && Qle_bool (-0.1) alt in
  if isNight then ("#0f172a", "#1e293b")
  else if isDusk then ("#4f46e5", "#fcd34d")
  else ("#3b82f6", "#e0f2fe").

Definition sunStudyEffect (timeOfDay : Q) (geometryData : option ApiResponse)
    (isSunStudyEnabled showDefaultShadows : bool) (now : Date) (r : Refs) : Refs :=
  match sunLightRef r, meshGroupRef r with
  | Some light, Some meshGroup =>
      let camSize := maxDim3 (getSize (setFromObject meshGroup)) * 0.8 in
      if negb isSunStudyEnabled then
        mkRefs (option_map (setBackground defaultBackground) (sceneRef r))
               (meshGroupRef r) (Some (mkSunLight showDefaultShadows camSize))
               (solarHelperRef r) (windHelperRef r) (mapGroupRef r)
      else
        match originOf geometryData with
        | None =>
            mkRefs (sceneRef r) (meshGroupRef r)
                   (Some (mkSunLight true (shadowCameraSize light)))
                   (solarHelperRef r) (windHelperRef r) (mapGroupRef r)
        | Some (lat, lon) =>
            let sunPos := getPosition (atHour timeOfDay now) lat lon in
            mkRefs (option_map (setBackground (skyColors (altitude sunPos))) (sceneRef r))
                   (meshGroupRef r) (Some (mkSunLight true camSize))
                   (solarHelperRef r) (windHelperRef r) (mapGroupRef r)
        end
  | _, _ => r
  end.

End WithSunCalc.

(** A sun that stands at the twilight cutoff at 04:00 and high in the sky
    for the rest of the day. *)
Definition cutoffAtFour (d : Date) (lat lon : Q) : SunPosition :=
  if ((hours d =? 4)%Z && (minutes d =? 0)%Z)%bool
  then mkSunPosition (-0.1) 0 else mkSunPosition 0.5 0.

Definition morning : Date := mkDate 0 9 30 0.

End Overlays.

(** ** The climate fetch and the scene generation counter *)

Module Climate.

(** A climate fetch that has not resolved yet. [issuedFor] is the scene
    generation of the payload the fetch was started for; the program
    itself keeps no such tag, it is recorded here to state properties
    about late results. *)
Record Request := mkRequest {
  issuedFor : nat;
  req_lat : Q;
  req_lon : Q
}.

Record State := mkState {
  isOpen : bool;
  geometryData : option ApiResponse;
  sceneGeneration : nat;
  climateData : option ClimateData;
  isSunStudyEnabled : bool;
  showSolarPath : bool;
  isClimateEnabled : bool;
  pending : list Request
}.

Definition initial (open : bool) : State :=
  mkState open None 0 None false false false [].

Inductive Event :=
| GeometryChanged (payload : option ApiResponse)
    (* the [geometryData] prop takes a new value *)
| ClimateArrived (i : nat) (result : option ClimateData)
    (* the promise of the [i]-th pending fetch resolves *)
| ToggleClimate.

(** The effects that depend on [geometryData], in the order of the
    component: reset of the analysis toggles, climate fetch, geometry
    effect ([setSceneGeneration(g => g + 1)] when the preview is open and
    has a payload). *)
Definition onGeometryChanged (payload : option ApiResponse) (s : State) : State :=
  let generation :=
    match payload with
    | Some _ => if isOpen s then S (sceneGeneration s) else sceneGeneration s
    | None => sceneGeneration s
    end in
  let pending' :=
    match originOf payload with
    | Some (lat, lon) => pending s ++ [mkRequest generation lat lon]
    | None => pending s
    end in
  mkState (isOpen s) payload generation (climateData s) false false false pending'.

(** [fetchClimateData(lat, lon).then(data => { if (data) setClimateData(data) })] *)
Definition onClimateArrived (i : nat) (result : option ClimateData) (s : State) : State :=
  match pending s !! i with
  | None => s
  | Some _ =>
      mkState (isOpen s) (geometryData s) (sceneGeneration s)
        (match result with
         | Some data => Some data
         | None => climateData s
         end)
        (isSunStudyEnabled s) (showSolarPath s) (isClimateEnabled s)
        (delete i (pending s))
  end.

Definition step (s : State) (e : Event) : State :=
  match e with
  | GeometryChanged payload => onGeometryChanged payload s
  | ClimateArrived i result => onClimateArrived i result s
  | ToggleClimate =>
      mkState (isOpen s) (geometryData s) (sceneGeneration s) (climateData s)
        (isSunStudyEnabled s) (showSolarPath s) (negb (isClimateEnabled s)) (pending s)
  end.

Definition run (s : State) (trace : list Event) : State := foldl step s trace.

(** A late result is dropped: when the [i]-th pending fetch was started
    for another generation than the current one, its arrival leaves the
    climate state as it is. *)
Definition discardsStale (s : State) (i : nat) (result : option ClimateData) : Prop :=
  forall req, pending s !! i = Some req ->
              issuedFor req <> sceneGeneration s ->
              climateData (step s (ClimateArrived i result)) = climateData s.

(** Two payloads and a climate result, for concrete traces. *)
Definition payloadA : ApiResponse := mkApiResponse (Some (48.85, 2.35)%Q) [].
Definition payloadB : ApiResponse := mkApiResponse (Some (40.71, -74.0)%Q) [].
Definition breeze : ClimateData :=
  mkClimateData (mkClimateSample 12 5 270) [].

(** The preview is open, payload A was loaded and then replaced by
    payload B while the climate fetch of A was still pending. *)
Definition reloaded : State :=
  run (initial true) [GeometryChanged (Some payloadA); GeometryChanged (Some payloadB)].

End Climate.

(** ** Map-tile underlay *)

Module Tiles.
Import JS Scene3D.
Local Open Scope Q_scope.

Record Tile := mkTile {
  tile_zoom : Z;
  tx : Z;
  ty : Z;
  worldX : Q;
  worldZ : Q
}.

Record LoopState := mkLoopState {
  loadedCount : Z;
  scheduled : list Tile
}.

Record MapResult := mkMapResult {
  refs : Refs;
  warnings : list Z;   (* the tile counts [console.warn] reported *)
  requests : list Tile (* the tiles handed to the texture loader *)
}.

Definition EARTH_CIRCUMFERENCE : Q := 40075016.686.
Definition pad : Z := 3.

(** [Math.max(15, Math.min(19, targetZoom))] *)
Definition clampZoom (targetZoom : Z) : Z := Z.max 15 (Z.min 19 targetZoom).

Definition detachMap (s : Scene) : Scene :=
  mkScene (solarAttached s) (windAttached s) false (background s).
Definition attachMap (s : Scene) : Scene :=
  mkScene (solarAttached s) (windAttached s) true (background s).

Section WithMath.
Variables Math_cos Math_tan Math_log Math_log2 : Q -> Q.
Variable Math_PI : Q.

Section Loops.
Variables (zoom : Z) (centerPixelX centerPixelY metersPerPixel : Q).

Definition getTileIndexX (wx : Q) : Z :=
  Math_floor ((centerPixelX + wx / metersPerPixel) / 256).
Definition getTileIndexY (wz : Q) : Z :=
  Math_floor ((centerPixelY + wz / metersPerPixel) / 256).

(** The body of the inner loop after the cap test. *)
Definition schedule (tx ty : Z) (st : LoopState) : LoopState :=
  let tileCenterPixelX := inject_Z (tx * 256 + 128) in
  let tileCenterPixelY := inject_Z (ty * 256 + 128) in
  mkLoopState (loadedCount st + 1)
    (scheduled st ++
     [mkTile zoom tx ty ((tileCenterPixelX - centerPixelX) * metersPerPixel)
             ((tileCenterPixelY - centerPixelY) * metersPerPixel)])%list.

(** The counter counts the scheduled tiles, it never passes the cap,
    and every tile carries the zoom of the invocation. *)
Definition loopInvariant (st : LoopState) : Prop :=
  Z.of_nat (length (scheduled st)) = loadedCount st
  /\ (loadedCount st <= 300)%Z
  /\ Forall (fun t => tile_zoom t = zoom) (scheduled st).

(** [for (ty = ...; ty <= maxTy + pad; ty++)] with [n] values of [ty]
    left; [break] leaves this loop only. *)
Fixpoint innerLoop (n : nat) (tx ty : Z) (st : LoopState) : LoopState :=
  match n with
  | O => st
  | S n' =>
      if (300 <=? loadedCount st)%Z then st
      else innerLoop n' tx (ty + 1)%Z (schedule tx ty st)
  end.

(** [for (tx = ...; tx <= maxTx + pad; tx++)] with [n] values left. *)
Fixpoint outerLoop (n : nat) (tx : Z) (loTy hiTy : Z) (st : LoopState) : LoopState :=
  match n with
  | O => st
  | S n' =>
      outerLoop n' (tx + 1)%Z loTy hiTy
        (innerLoop (Z.to_nat (hiTy - loTy + 1)) tx loTy st)
  end.

Definition loadTiles (minTx maxTx minTy maxTy : Z) : LoopState :=
  outerLoop (Z.to_nat ((maxTx + pad) - (minTx - pad) + 1)) (minTx - pad)%Z
            (minTy - pad)%Z (maxTy + pad)%Z (mkLoopState 0 []).
End Loops.

(** [(maxDim || 100)] *)
Definition orHundred (maxDim : Q) : Q := if Qeq_bool maxDim 0 then 100 else maxDim.

Definition targetZoomOf (lat maxDim : Q) : Z :=
  let cosLat := Math_cos (lat * Math_PI / 180) in
  Math_floor (Math_log2 ((10 * 256 * EARTH_CIRCUMFERENCE * cosLat) / orHundred maxDim) - 8).

Definition zoomOf (lat maxDim : Q) : Z := clampZoom (targetZoomOf lat maxDim).

Definition tileCountOf (minTx maxTx minTy maxTy : Z) : Z :=
  ((maxTx - minTx + 1 + 2 * pad) * (maxTy - minTy + 1 + 2 * pad))%Z.

(** The zoom, the pixel position of the origin and the range of tile
    indices that covers the box. *)
Record Grid := mkGrid {
  zoom : Z;
  centerPixelX : Q;
  centerPixelY : Q;
  metersPerPixel : Q;
  minTx : Z;
  maxTx : Z;
  minTy : Z;
  maxTy : Z
}.

Definition gridOf (lat lon : Q) (mn mx : Vector3) : Grid :=
  let sizeX := vx mx - vx mn in
  let sizeZ := vz mx - vz mn in
  let maxDim := Math_max sizeX sizeZ in
  let latRad := lat * Math_PI / 180 in
  let cosLat := Math_cos latRad in
  let zoom := zoomOf lat maxDim in
  let metersPerPixel := (EARTH_CIRCUMFERENCE * cosLat) / (2 ^ (zoom + 8)) in
  let n := 2 ^ zoom in
  let xTileFloat := n * ((lon + 180) / 360) in
  let yTileFloat :=
    n * (1 - (Math_log (Math_tan latRad + 1 / Math_cos latRad) / Math_PI)) / 2 in
  let centerPixelX := xTileFloat * 256 in
  let centerPixelY := yTileFloat * 256 in
  mkGrid zoom centerPixelX centerPixelY metersPerPixel
    (getTileIndexX centerPixelX metersPerPixel (vx mn))
    (getTileIndexX centerPixelX metersPerPixel (vx mx))
    (getTileIndexY centerPixelY metersPerPixel (vz mn))
    (getTileIndexY centerPixelY metersPerPixel (vz mx)).

Definition tileCount (g : Grid) : Z :=
  tileCountOf (minTx g) (maxTx g) (minTy g) (maxTy g).

Definition tilesOf (g : Grid) : list Tile :=
  scheduled (loadTiles (zoom g) (centerPixelX g) (centerPixelY g) (metersPerPixel g)
                       (minTx g) (maxTx g) (minTy g) (maxTy g)).

(** The map-underlay effect. *)
Definition mapUnderlayEffect (showMapUnderlay : bool)
    (geometryData : option ApiResponse) (r : Refs) : MapResult :=
  match sceneRef r, meshGroupRef r, originOf geometryData with
  | Some scene, Some meshGroup, Some (lat, lon) =>
      (* cleanup *)
      let scene1 :=
        match mapGroupRef r with
        | Some _ => detachMap scene
        | None => scene
        end in
      let cleaned :=
        mkRefs (Some scene1) (meshGroupRef r) (sunLightRef r)
               (solarHelperRef r) (windHelperRef r) None in
      if showMapUnderlay then
        match setFromObject meshGroup with
        | EmptyBox => mkMapResult cleaned [] []
        | Box mn mx as box =>
            if isEmpty box then mkMapResult cleaned [] [] else
            let g := gridOf lat lon mn mx in
            let warned := if (300 <? tileCount g)%Z then [tileCount g] else [] in
            let tiles := tilesOf g in
            let group := Object KGroup true (map (fun _ => leaf KMesh) tiles) in
            mkMapResult
              (mkRefs (Some (attachMap scene1)) (meshGroupRef r) (sunLightRef r)
                      (solarHelperRef r) (windHelperRef r) (Some group))
              warned tiles
        end
      else mkMapResult cleaned [] []
  | _, _, _ => mkMapResult r [] []
  end.
End WithMath.

(** A site of five kilometres on the equator, with stand-ins for the
    functions of [Math] at that latitude: cos 0 = 1, tan 0 = 0, log 1 = 0,
    and a logarithm that asks for zoom 22. *)
Definition cosAtEquator (a : Q) : Q := 1.
Definition tanAtEquator (a : Q) : Q := 0.
Definition logOfOne (a : Q) : Q := 0.
Definition log2Wide (a : Q) : Q := 30.
Definition wideSite : MeshGroup := [Box (mkVector3 0 0 0) (mkVector3 5000 10 5000)].
Definition wideRefs : Refs := afterGeometryEffect wideSite noRefs.
Definition atEquator : ApiResponse := mkApiResponse (Some (0, 10)) [].
Definition wideGrid : Grid :=
  gridOf cosAtEquator tanAtEquator logOfOne log2Wide 3.14159 0 10
         (mkVector3 0 0 0) (mkVector3 5000 10 5000).

End Tiles.

(** ** Render capture: [handleRender] *)

Module Capture.
Import Scene3D.
Local Open Scope Q_scope.

(** The overlay toggles of the component; [handleRender] has no setter
    of any of them in scope of its body. *)
Record Toggles := mkToggles {
  isSunStudyEnabled : bool;
  showDefaultShadows : bool;
  showSolarPath : bool;
  isClimateEnabled : bool;
  showMapUnderlay : bool;
  timeOfDay : Q
}.

(** What outlives one invocation and belongs to the 3D view. *)
Record View := mkView {
  rendererSize : Q * Q;              (* size of [rendererRef.current] *)
  cameraRef : option Q;              (* [aspect] of the camera, if any *)
  sceneRef : bool;                   (* whether [sceneRef.current] is set *)
  solarHelperRef : option Object3D;
  windHelperRef : option Object3D;
  toggles : Toggles
}.

Inductive Tab := tab3d | tabRender.

(** The state of the render tab. *)
Record RenderUi := mkRenderUi {
  activeTab : Tab;
  isRendering : bool;
  renderError : option string;
  renderedImageUrl : option string;
  originalImageUrl : option string
}.

Record State := mkState {
  view : View;
  ui : RenderUi
}.

(** How a call into the browser or a service ends. A thrown value that is
    an [Error] carries its message. *)
Inductive Outcome (A : Type) :=
| Returns (a : A)
| Throws (message : option string).
Arguments Returns {A} a.
Arguments Throws {A} message.

Record RenderResponse := mkRenderResponse {
  success : bool;                    (* [status === 'success'] *)
  imageUrl : string;
  error : option string
}.

(** The calls of one invocation whose result the component does not
    control, in program order. *)
Record World := mkWorld {
  firstRender : Outcome unit;        (* [renderer.render] at the target size *)
  toDataURL : Outcome string;        (* [canvas.toDataURL('image/png')] *)
  secondRender : Outcome unit;       (* [renderer.render] after the restore *)
  fetchBlob : Outcome string;        (* [(await fetch(dataUrl)).blob()] *)
  generateRender : Outcome RenderResponse
}.

(** Statements of the [try] block: they change the state and may throw. *)
Definition M (A : Type) : Type := State -> State * Outcome A.

Definition ret {A} (a : A) : M A := fun s => (s, Returns a).
Definition bind {A B} (m : M A) (k : A -> M B) : M B :=
  fun s =>
    match m s with
    | (s', Returns a) => k a s'
    | (s', Throws e) => (s', Throws e)
    end.
Definition get : M State := fun s => (s, Returns s).
Definition modifyView (f : View -> View) : M unit :=
  fun s => (mkState (f (view s)) (ui s), Returns tt).
Definition modifyUi (f : RenderUi -> RenderUi) : M unit :=
  fun s => (mkState (view s) (f (ui s)), Returns tt).
Definition call {A} (o : Outcome A) : M A := fun s => (s, o).
Definition when (b : bool) (m : M unit) : M unit := if b then m else ret tt.

Notation "x <- m ;; k" := (bind m (fun x => k))
  (at level 100, m at next level, right associativity).
Notation "m ;;; k" := (bind m (fun _ => k))
  (at level 100, right associativity).

Definition setHelpers (solar wind : option Object3D) (v : View) : View :=
  mkView (rendererSize v) (cameraRef v) (sceneRef v) solar wind (toggles v).
Definition setSize (size : Q * Q) (v : View) : View :=
  mkView size (cameraRef v) (sceneRef v) (solarHelperRef v) (windHelperRef v) (toggles v).
(** [if (cameraRef.current) cameraRef.current.aspect = a] *)
Definition setAspect (a : Q) (v : View) : View :=
  mkView (rendererSize v) (option_map (fun _ => a) (cameraRef v)) (sceneRef v)
         (solarHelperRef v) (windHelperRef v) (toggles v).

Definition setIsRendering (b : bool) (u : RenderUi) : RenderUi :=
  mkRenderUi (activeTab u) b (renderError u) (renderedImageUrl u) (originalImageUrl u).
Definition setRenderError (e : option string) (u : RenderUi) : RenderUi :=
  mkRenderUi (activeTab u) (isRendering u) e (renderedImageUrl u) (originalImageUrl u).
Definition setRenderedImageUrl (i : option string) (u : RenderUi) : RenderUi :=
  mkRenderUi (activeTab u) (isRendering u) (renderError u) i (originalImageUrl u).
Definition setOriginalImageUrl (i : option string) (u : RenderUi) : RenderUi :=
  mkRenderUi (activeTab u) (isRendering u) (renderError u) (renderedImageUrl u) i.
Definition setActiveTab (t : Tab) (u : RenderUi) : RenderUi :=
  mkRenderUi t (isRendering u) (renderError u) (renderedImageUrl u) (originalImageUrl u).

Definition targetWidth : Q := 1376.
Definition targetHeight : Q := 768.

(** [if (ref.current && was !== undefined) ref.current.visible = was] *)
Definition restoreVisible (was : option bool) (ref : option Object3D) : option Object3D :=
  match ref, was with
  | Some o, Some v => Some (setVisible v o)
  | _, _ => ref
  end.

(** The body of the [try] block. *)
Definition tryBlock (w : World) : M unit :=
  s0 <- get ;;
  (* hide the helpers for a clean capture *)
  let wasSolarVisible := option_map obj_visible (solarHelperRef (view s0)) in
  let wasWindVisible := option_map obj_visible (windHelperRef (view s0)) in
  modifyView (fun v => setHelpers (option_map (setVisible false) (solarHelperRef v))
                                  (option_map (setVisible false) (windHelperRef v)) v) ;;;
  (* store the original size and aspect *)
  let originalSize := rendererSize (view s0) in
  originalAspect <- call (match cameraRef (view s0) with
                          | Some a => Returns a
                          | None => Throws (Some "Cannot read properties of null")
                          end) ;;
  modifyView (setSize (targetWidth, targetHeight)) ;;;
  modifyView (setAspect (targetWidth / targetHeight)) ;;;
  when (sceneRef (view s0) && bool_decide (is_Some (cameraRef (view s0))))
       (call (firstRender w)) ;;;
  dataUrl <- call (toDataURL w) ;;
  (* restore the original size and aspect *)
  modifyView (setSize originalSize) ;;;
  modifyView (setAspect originalAspect) ;;;
  (* restore the helpers *)
  modifyView (fun v => setHelpers (restoreVisible wasSolarVisible (solarHelperRef v))
                                  (restoreVisible wasWindVisible (windHelperRef v)) v) ;;;
  when (sceneRef (view s0) && bool_decide (is_Some (cameraRef (view s0))))
       (call (secondRender w)) ;;;
  modifyUi (setOriginalImageUrl (Some dataUrl)) ;;;
  blob <- call (fetchBlob w) ;;
  result <- call (generateRender w) ;;
  if success result then
    modifyUi (setRenderedImageUrl (Some (imageUrl result)))
  else
    modifyUi (setRenderError (Some (JS.strOr (error result) "Rendering failed"))).

(** [try { ... } catch (err) { setRenderError(...) } finally { setIsRendering(false) }] *)
Definition tryCatchFinally (w : World) (s : State) : State :=
  let s1 :=
    match tryBlock w s with
    | (s', Returns _) => s'
    | (s', Throws message) =>
        mkState (view s')
                (setRenderError (Some (default "Unknown error" message)) (ui s'))
    end in
  mkState (view s1) (setIsRendering false (ui s1)).

(** [handleRender]; [rendererRef] and [apiKey] are the two values of its
    guard. *)
Definition handleRender (rendererRef : bool) (apiKey : option string)
    (w : World) (s : State) : State :=
  if negb rendererRef || negb (bool_decide (is_Some apiKey))
                      || bool_decide (apiKey = Some "") then s
  else
    let s1 :=
      mkState (view s)
        (setActiveTab tabRender
           (setRenderedImageUrl None (setRenderError None (setIsRendering true (ui s))))) in
    tryCatchFinally w s1.

(** A view with both helpers shown, and a world where the canvas cannot
    be read back. *)
Definition shownHelper : Object3D := Object KGroup true [leaf KLine].
Definition liveView : View :=
  mkView (800, 600) (Some (800 / 600)) true (Some shownHelper) (Some shownHelper)
         (mkToggles false true true true false 12).
Definition idle : State :=
  mkState liveView (mkRenderUi tab3d false None None None).
Definition readbackFails : World :=
  mkWorld (Returns tt) (Throws (Some "SecurityError")) (Returns tt)
          (Returns "blob") (Returns (mkRenderResponse true "data:image/png" None)).

End Capture.

(** ** The mesh branch of the geometry effect *)

Module Meshes.
Import JS.
Local Open Scope Q_scope.

(** [COLORS.surface], read with a string key. *)
Definition COLORS_surface : gmap string string :=
  list_to_map
    [ ("roadway", "#808080"); ("asphalt", "#333333");
      ("roadwayIntersection", "#444444"); ("roadwayArea", "#555555");
      ("pavement", "#B092BC"); ("footway", "#B092BC"); ("water", "#ADD8E6");
      ("grass", "#7CFC00"); ("manicuredGrass", "#006400");
      ("farmland", "#C19A6B"); ("sand", "#F4A460"); ("rock", "#808080");
      ("pitch", "#32CD32"); ("helipad", "#696969"); ("forest", "#228B22");
      ("garden", "#9ACD32"); ("construction", "#FFA500");
      ("buildingConstruction", "#FF4500"); ("shrubbery", "#8FBC8F");
      ("default", "#CCCCCC") ].

(** A mesh object added to a layer group: [userData.type],
    [userData.subtype], the colour of its material, its vertex buffer, and
    whether it carries the edge overlay of the buildings. *)
Record MeshObject := mkMeshObject {
  userData_type : string;
  userData_subtype : string;
  material_color : string;
  buffer : list Q;
  hasEdges : bool
}.

(** [mesh.descriptor?.pathType || mesh.descriptor?.type || 'default'] *)
Definition surfaceTypeOf (mesh : MeshData) : string :=
  strOr (descriptor_pathType mesh) (strOr (descriptor_type mesh) "default").

(** The chain of tests on [type] that picks the layer; the group of the
    infrastructure is the fallback. *)
Definition targetLayerOf (type : string) : string :=
  if String.eqb type "buildings" then "buildings"
  else if String.eqb type "surface" then "surface"
  else if String.eqb type "infrastructure" then "infrastructure"
  else if String.eqb type "barriers" then "barriers"
  else if String.eqb type "topography" then "topography"
  else "infrastructure".

(** The same chain for the colour; the white of the buildings is the
    fallback. *)
Definition colorOf (type : string) (mesh : MeshData) : string :=
  if String.eqb type "buildings" then "#FFFFFF"
  else if String.eqb type "surface" then
    default "#CCCCCC" (COLORS_surface !! surfaceTypeOf mesh)
  else if String.eqb type "infrastructure" then
    default "#AAAAAA" (Synth.COLORS_infrastructure !! strOr (descriptor_type mesh) "default")
  else if String.eqb type "barriers" then "#8B4513"
  else if String.eqb type "topography" then "#654321"
  else "#FFFFFF".

(** The body of [geomData.meshes.forEach]: [None] for a mesh that is
    skipped ([!mesh.vertices || mesh.vertices.length === 0]). *)
Definition ingestMesh (type : string) (mesh : MeshData) : option MeshObject :=
  match vertices mesh with
  | None | Some [] => None
  | Some vs =>
      Some (mkMeshObject type (surfaceTypeOf mesh) (colorOf type mesh) vs
                         (String.eqb type "buildings"))
  end.

(** The running totals shown under the viewport. *)
Record Stats := mkStats {
  meshCount : nat;
  vertexCount : Q
}.

(** The six layer groups, each with the mesh objects added so far. *)
Definition emptyLayers : gmap string (list MeshObject) :=
  list_to_map [ ("buildings", []); ("surface", []); ("vegetation", []);
                ("infrastructure", []); ("barriers", []); ("topography", []) ].

Definition addMesh (acc : gmap string (list MeshObject) * Stats) (type : string)
    (mesh : MeshData) : gmap string (list MeshObject) * Stats :=
  match ingestMesh type mesh with
  | None => acc
  | Some obj =>
      (alter (fun objs => objs ++ [obj]) (targetLayerOf type) acc.1,
       mkStats (S (meshCount acc.2))
               (vertexCount acc.2 + inject_Z (Z.of_nat (length (buffer obj))) / 3))
  end.

(** [if (geometryType === 'meshes' && geomData.meshes) ...] *)
Definition meshesOf (g : GeometryData) : list MeshData :=
  if String.eqb (geometryType g) "meshes" then
    match meshes g with
    | Some ms => ms
    | None => []
    end
  else [].

(** The mesh branch over the whole payload. *)
Definition ingestMeshes (geometry : list GeometryData)
  : gmap string (list MeshObject) * Stats :=
  foldl (fun acc g => foldl (fun acc mesh => addMesh acc (layerType g) mesh) acc (meshesOf g))
        (emptyLayers, mkStats 0 0) geometry.


(** The presses of the layer panel: the eye of a layer row, or the button
    of the [i]-th surface subtype row. *)
Inductive Press :=
| PressLayer (id : Layers.LayerId)
| PressSublayer (subKey : string).

Definition press (lv : Layers.LayerVisibility) (p : Press) : Layers.LayerVisibility :=
  match p with
  | PressLayer id => Layers.toggleLayer id lv
  | PressSublayer subKey => Layers.toggleSublayer subKey lv
  end.


(** The instanced batches of a payload that are not empty: each becomes
    one instanced mesh and counts once in the mesh counter. *)
Definition batchCount (instances : gmap string (list Synth.Instance)) : nat :=
  length (List.filter (fun key => match instances !! key with
                                  | None | Some [] => false
                                  | Some _ => true
                                  end) Synth.batchKeys).

End Meshes.

(** ** Handlers of the panel: analysis toggles, comparison slider, prompt *)

Module Panel.
Import JS.
Local Open Scope Q_scope.

(** The "Sun" button:
    [setIsSunStudyEnabled(!isSunStudyEnabled);
     if (isSunStudyEnabled) setIsClimateEnabled(false)] *)
Definition pressSun (t : Capture.Toggles) : Capture.Toggles :=
  Capture.mkToggles (negb (Capture.isSunStudyEnabled t)) (Capture.showDefaultShadows t)
    (Capture.showSolarPath t)
    (if Capture.isSunStudyEnabled t then false else Capture.isClimateEnabled t)
    (Capture.showMapUnderlay t) (Capture.timeOfDay t).

(** The "Clim" button. *)
Definition pressClimate (t : Capture.Toggles) : Capture.Toggles :=
  Capture.mkToggles (Capture.isSunStudyEnabled t) (Capture.showDefaultShadows t)
    (Capture.showSolarPath t) (negb (Capture.isClimateEnabled t))
    (Capture.showMapUnderlay t) (Capture.timeOfDay t).

(** The effect that resets the analysis states when [geometryData]
    changes. *)
Definition resetAnalysis (t : Capture.Toggles) : Capture.Toggles :=
  Capture.mkToggles false (Capture.showDefaultShadows t) false false
    (Capture.showMapUnderlay t) (Capture.timeOfDay t).

(** [getBoundingClientRect()] of the comparison slider. *)
Record Rect := mkRect {
  left : Q;
  width : Q
}.

(** [handleSliderMove]: the new [sliderPosition] for a pointer at
    [clientX]; without the slider element nothing is set. *)
Definition handleSliderMove (sliderRef : option Rect) (clientX : Q)
    (sliderPosition : Q) : Q :=
  match sliderRef with
  | None => sliderPosition
  | Some rect =>
      let position := ((clientX - left rect) / width rect) * 100 in
      Math_min 100 (Math_max 0 position)
  end.

(** The prompt state of the render tab. *)
Record PromptState := mkPromptState {
  promptOverride : string;
  tempPrompt : string;
  showPromptEditor : bool
}.

Section WithNumberFormat.
(** [`${n}`] for a number. *)
Variable numberToString : Q -> string.

(** [s || d] on strings. *)
Definition orString (s d : string) : string :=
  match s with
  | EmptyString => d
  | _ => s
  end.

Definition generateDefaultPrompt (locationName : option string)
    (geometryData : option ApiResponse) : string :=
  let smartPrompt :=
    match locationName with
    | None | Some EmptyString =>
        "Photorealistic render of an urban environment, architectural visualization, high fidelity to input layout, realistic building facades and textures, organic tree canopy, do not add new buildings, respect camera view and perspective, cinematic lighting, highly detailed, 8k resolution, day lighting"
    | Some name =>
        ("Photorealistic render of " ++ name ++
         ", urban context, accurate architectural style, high fidelity to input layout, realistic materials, organic vegetation, do not add new buildings, respect camera view and perspective, cinematic lighting, 8k resolution")%string
    end in
  match originOf geometryData with
  | Some (lat, lon) =>
      (smartPrompt ++ ", located at coordinates " ++ numberToString lat ++ ", "
                   ++ numberToString lon)%string
  | None => smartPrompt
  end.

(** The prompt [handleRender] sends:
    [promptOverride || generateDefaultPrompt()]. *)
Definition smartPrompt (locationName : option string)
    (geometryData : option ApiResponse) (p : PromptState) : string :=
  orString (promptOverride p) (generateDefaultPrompt locationName geometryData).

Definition handleOpenPromptEditor (locationName : option string)
    (geometryData : option ApiResponse) (p : PromptState) : PromptState :=
  mkPromptState (promptOverride p) (smartPrompt locationName geometryData p) true.

(** The text area of the editor. *)
Definition editPrompt (text : string) (p : PromptState) : PromptState :=
  mkPromptState (promptOverride p) text (showPromptEditor p).

Definition handleSavePrompt (p : PromptState) : PromptState :=
  mkPromptState (tempPrompt p) (tempPrompt p) false.

(** [setPromptOverride("")] of the reset effect. *)
Definition resetPrompt (p : PromptState) : PromptState :=
  mkPromptState "" (tempPrompt p) (showPromptEditor p).

End WithNumberFormat.

(** A slider of 400 pixels that starts at pixel 100. *)
Definition sliderRect : Rect := mkRect 100 400.

End Panel.

(** ** The climate service: [fetchClimateData] *)

Module ClimateService.
Local Open Scope Q_scope.

(** The [hourly] object of the forecast: parallel arrays, each of which
    may be missing. *)
Record HourlyArrays := mkHourlyArrays {
  time : option (list string);
  temperature_2m : option (list Q);
  windspeed_10m : option (list Q);
  winddirection_10m : option (list Q);
  weathercode : option (list Q)
}.

Record CurrentWeather := mkCurrentWeather {
  cw_temperature : option Q;
  cw_windspeed : option Q;
  cw_winddirection : option Q;
  cw_weathercode : option Q
}.

Record Forecast := mkForecast {
  current_weather : option CurrentWeather;
  hourly : option HourlyArrays
}.

(** How [fetch] followed by [response.json()] ends: one of them throws,
    or the body parses to a value, which may be [null]. *)
Inductive Fetched :=
| FetchThrows
| Parsed (data : option Forecast).

(** An entry of the result; a field is [undefined] when its array is
    shorter than the time array. *)
Record Sample := mkSample {
  s_time : string;
  s_temperature : option Q;
  s_windSpeed : option Q;
  s_windDirection : option Q;
  s_weatherCode : option Q
}.

Record Result := mkResult {
  r_current : CurrentWeather;
  r_hourly : list Sample
}.

(** The callback of [data.hourly.time.map]: reading an index of a missing
    array throws, which is [None]. *)
Definition sampleAt (h : HourlyArrays) (index : nat) (t : string) : option Sample :=
  temps ← temperature_2m h;
  speeds ← windspeed_10m h;
  dirs ← winddirection_10m h;
  codes ← weathercode h;
  Some (mkSample t (temps !! index) (speeds !! index) (dirs !! index) (codes !! index)).

(** [arr.map(f)] with a callback that may throw: the first throw is the
    outcome. *)
Fixpoint mapFrom {A B} (f : nat -> A -> option B) (index : nat) (l : list A)
  : option (list B) :=
  match l with
  | [] => Some []
  | a :: l' =>
      b ← f index a;
      bs ← mapFrom f (S index) l';
      Some (b :: bs)
  end.

(** [fetchClimateData]: [None] is [null]. Every exception of the body is
    caught and answered by [null]. *)
Definition fetchClimateData (fetched : Fetched) : option Result :=
  match fetched with
  | FetchThrows => None
  | Parsed None => None (* reading a property of [null] throws *)
  | Parsed (Some data) =>
      match current_weather data, hourly data with
      | Some cw, Some h =>
          times ← time h;
          hourlyData ← mapFrom (sampleAt h) 0 times;
          Some (mkResult cw hourlyData)
      | _, _ => None
      end
  end.

(** A forecast with three hours and a wind-speed array that stops after
    two. *)
Definition shortForecast : Forecast :=
  mkForecast (Some (mkCurrentWeather (Some 12) (Some 5) (Some 270) (Some 1)))
    (Some (mkHourlyArrays (Some ["00:00"; "01:00"; "02:00"])
             (Some [10; 11; 12]%Q) (Some [4; 5]%Q) (Some [90; 100; 110]%Q)
             (Some [0; 0; 1]%Q))).

(** What [fetchClimateData] makes of it. *)
Definition shortResult : Result :=
  mkResult (mkCurrentWeather (Some 12) (Some 5) (Some 270) (Some 1))
    [mkSample "00:00" (Some 10) (Some 4) (Some 90) (Some 0);
     mkSample "01:00" (Some 11) (Some 5) (Some 100) (Some 0);
     mkSample "02:00" (Some 12) None (Some 110) (Some 1)].

End ClimateService.

(** ** The image-generation service: [generateRender] *)

Module Gemini.
Import Capture.

(** The part of the response body the function reads:
    [data.candidates?.[0]?.content?.parts?.[0]?.inlineData]. *)
Record InlineData := mkInlineData {
  data : option string;
  mimeType : option string
}.
Record Part := mkPart { inlineData : option InlineData }.
Record Content := mkContent { parts : option (list Part) }.
Record Candidate := mkCandidate { content : option Content }.
Record Body := mkBody { candidates : option (list Candidate) }.

Record Response := mkResponse {
  ok : bool;
  status : N;
  text : Outcome string;               (* [await response.text()] *)
  parsedError : Outcome (option string);
    (* [JSON.parse(errorText)] and, when it returns, [errorJson.error?.message] *)
  json : Outcome (option Body)         (* [await response.json()]; [None] is [null] *)
}.

(** The steps of the [try] block: their result or the thrown message. *)
Definition andThen {A B} (o : Outcome A) (k : A -> Outcome B) : Outcome B :=
  match o with
  | Returns a => k a
  | Throws message => Throws message
  end.

(** [new Error(message)] thrown. *)
Definition throwError {A} (message : string) : Outcome A := Throws (Some message).

(** [s || d] on optional strings. *)
Definition orElse (s : option string) (d : string) : string := JS.strOr s d.

(** The branch [if (!response.ok)]: the inner [try] always throws, and its
    [catch] answers every throw with the same new error. *)
Definition notOk (r : Response) : Outcome RenderResponse :=
  andThen (text r) (fun errorText =>
    let inner : Outcome RenderResponse :=
      andThen (parsedError r) (fun message =>
        throwError (orElse message ("API Error: " ++ pretty (status r)))%string) in
    match inner with
    | Returns a => Returns a
    | Throws _ =>
        throwError ("API Error: " ++ pretty (status r) ++ " - "
                    ++ String.substring 0 100 errorText)%string
    end).

(** [candidate?.content?.parts?.[0]] and below. *)
Definition firstInline (body : Body) : option InlineData :=
  candidate ← candidates body ≫= head;
  c ← content candidate;
  part ← parts c ≫= head;
  inlineData part.

Definition extract (r : Response) : Outcome RenderResponse :=
  andThen (json r) (fun body =>
    match body with
    | None => Throws (Some "Cannot read properties of null")
    | Some body =>
        match firstInline body with
        | Some (mkInlineData (Some (String c rest as imageData)) mime) =>
            Returns (mkRenderResponse true
                       ("data:" ++ orElse mime "image/png" ++ ";base64," ++ imageData)%string
                       None)
        | _ => throwError "No image data found in response"
        end
    end).

(** [generateRender], from the answer of [fetch] on: the outer [catch]
    turns every throw into an error response. *)
Definition generateRender (fetched : Outcome Response) : RenderResponse :=
  let attempt :=
    andThen fetched (fun r => if ok r then extract r else notOk r) in
  match attempt with
  | Returns response => response
  | Throws message =>
      mkRenderResponse false "" (Some (default "Unknown rendering error" message))
  end.

(** A refusal whose body is the JSON error object of the service. *)
Definition quotaExceeded : Response :=
  mkResponse false 429 (Returns "{error: {message: Quota exceeded}}")
             (Returns (Some "Quota exceeded")) (Throws None).

End Gemini.

(** ** The map viewer: the coordinates reported for the selection *)

Module MapViewer.

(** [getCoords]: the first ring of [layer.getLatLngs()], closed by its
    first point. [None] in the result is [undefined]. *)
Definition getCoords (latlngs : Capture.Outcome (option (list (list (Q * Q)))))
  : list (option (Q * Q)) :=
  match latlngs with
  | Capture.Throws _ => []
  | Capture.Returns None => []
  | Capture.Returns (Some rings) =>
      match rings with
      | [] => []
      | ring :: _ =>
          let coords := map Some ring in
          coords ++ [default None (head coords)]
      end
  end.

End MapViewer.

(** ** Reading the batches after the node loop *)

Module Batches.
Import Synth.

(** The instances of a list of pushes that go to one batch, in order. *)
Definition pushedTo (key : string) (es : list (string * Instance)) : list Instance :=
  map snd (List.filter (fun e => String.eqb e.1 key) es).

(** The nodes that take the tree branch. *)
Definition isTreeNode (node : Node) : bool :=
  isTree (normalize (rawTypeOf node)).

End Batches.

(** ** Reading the layers after the mesh branch *)

Module MeshFacts.
Import Meshes.

(** The mesh objects a payload gives rise to, each with the key of its
    layer, in the order of the payload. *)
Definition ingested (geometry : list GeometryData) : list (string * MeshObject) :=
  flat_map (fun g =>
    flat_map (fun mesh =>
      match ingestMesh (layerType g) mesh with
      | Some obj => [(targetLayerOf (layerType g), obj)]
      | None => []
      end) (meshesOf g)) geometry.

Definition addedTo (key : string) (es : list (string * MeshObject)) : list MeshObject :=
  map snd (List.filter (fun e => String.eqb e.1 key) es).

Definition layerKeys : list string :=
  ["buildings"; "surface"; "vegetation"; "infrastructure"; "barriers"; "topography"].

(** The types the chain of tests knows. *)
Definition meshTypes : list string :=
  ["buildings"; "surface"; "infrastructure"; "barriers"; "topography"].


End MeshFacts.

(** ** The share of each overlay in the scene graph *)

Module Slots.
Import Scene3D.

Definition windNodes (r : Refs) : nat :=
  match sceneRef r with
  | Some s => attachedCount (windAttached s) (windHelperRef r)
  | None => O
  end.

Definition solarNodes (r : Refs) : nat :=
  match sceneRef r with
  | Some s => attachedCount (solarAttached s) (solarHelperRef r)
  | None => O
  end.

Definition mapNodes (r : Refs) : nat :=
  match sceneRef r with
  | Some s => attachedCount (mapAttached s) (mapGroupRef r)
  | None => O
  end.

End Slots.

(** ** Reading the tiles of one run *)

Module TileFacts.
Import Tiles.
Local Open Scope Q_scope.

(** [n] consecutive integers from [lo]. *)
Fixpoint zrange (lo : Z) (n : nat) : list Z :=
  match n with
  | O => []
  | S n' => lo :: zrange (lo + 1)%Z n'
  end.

(** The padded grid in the order of the two loops: column by column from
    west to east, each column from north to south. *)
Definition gridCells (minTx maxTx minTy maxTy : Z) : list (Z * Z) :=
  flat_map (fun tx => map (fun ty => (tx, ty))
                          (zrange (minTy - pad) (Z.to_nat ((maxTy + pad) - (minTy - pad) + 1))))
           (zrange (minTx - pad) (Z.to_nat ((maxTx + pad) - (minTx - pad) + 1))).

Definition cellOf (t : Tile) : Z * Z := (tx t, ty t).

(** The quad of a tile is a square of [256 * metersPerPixel] metres around
    its position: the point ([wx], [wz]) of the ground lies on it. *)
Definition covers (metersPerPixel : Q) (t : Tile) (wx wz : Q) : Prop :=
  worldX t - 128 * metersPerPixel <= wx /\ wx <= worldX t + 128 * metersPerPixel
  /\ worldZ t - 128 * metersPerPixel <= wz /\ wz <= worldZ t + 128 * metersPerPixel.

(** Where the second loop body puts the tile of a cell. *)
Definition placed (centerPixelX centerPixelY metersPerPixel : Q) (t : Tile) : Prop :=
  worldX t = (inject_Z (tx t * 256 + 128) - centerPixelX) * metersPerPixel
  /\ worldZ t = (inject_Z (ty t * 256 + 128) - centerPixelY) * metersPerPixel.

(** A site of 200 metres on the equator at zoom 19. *)
Definition smallSite : Scene3D.MeshGroup :=
  [Scene3D.Box (mkVector3 0 0 0) (mkVector3 200 10 200)].
Definition smallRefs : Scene3D.Refs := Scene3D.afterGeometryEffect smallSite Scene3D.noRefs.
Definition smallGrid : Grid :=
  gridOf cosAtEquator tanAtEquator logOfOne log2Wide 3.14159 0 10
         (mkVector3 0 0 0) (mkVector3 200 10 200).

End TileFacts.

(** ** Sample answers of the image service *)

Module GeminiFacts.
Import Capture Gemini.

(** An answer with one image part and no MIME type. *)
Definition imageAnswer : Response :=
  mkResponse true 200 (Returns "") (Throws None)
    (Returns (Some (mkBody (Some [mkCandidate (Some (mkContent (Some
       [mkPart (Some (mkInlineData (Some "iVBORw0KGgo") None))])))])))).

End GeminiFacts.

(** * Properties *)

(** ** Strings and arrays *)

Lemma prefix_spec (needle hay : string) :
  String.prefix needle hay = true <-> exists rest, hay = (needle ++ rest)%string.
Proof.
  revert hay. induction needle as [|a needle IH]; intros hay.
  - split; [intros _; exists hay; reflexivity | destruct hay; reflexivity].
  - destruct hay as [|b hay].
    + split; [discriminate | intros [rest Hrest]; discriminate].
    + cbn [String.prefix]. destruct (ascii_dec a b) as [->|Hne].
      * rewrite IH. split; intros [rest Hrest]; exists rest.
        -- cbn. now rewrite Hrest.
        -- cbn in Hrest. now injection Hrest.
      * split; [discriminate|]. intros [rest Hrest]. cbn in Hrest.
        injection Hrest as Hab _. congruence.
Qed.

Lemma includes_spec (needle hay : string) :
  JS.includes needle hay = true <->
  exists before after, hay = (before ++ needle ++ after)%string.
Proof.
  induction hay as [|c hay IH].
  - cbn [JS.includes]. rewrite orb_false_r, prefix_spec. split.
    + intros [rest Hrest]. exists EmptyString, rest. exact Hrest.
    + intros [[|c before] [after Heq]]; [exists after; exact Heq | discriminate].
  - cbn [JS.includes]. rewrite orb_true_iff, prefix_spec, IH. split.
    + intros [[rest Hrest] | (before & after & Heq)].
      * exists EmptyString, rest. exact Hrest.
      * exists (String c before), after. cbn. now rewrite Heq.
    + intros [[|c' before] [after Heq]].
      * left. exists after. exact Heq.
      * right. cbn in Heq. injection Heq as _ Heq. now exists before, after.
Qed.

Lemma arrayIncludes_spec (arr : list string) (x : string) :
  JS.arrayIncludes arr x = true <-> x ∈ arr.
Proof.
  unfold JS.arrayIncludes. rewrite existsb_exists, list_elem_of_In. split.
  - intros (y & Hin & Heq). apply String.eqb_eq in Heq. now subst.
  - intros Hin. exists x. split; [exact Hin | apply String.eqb_refl].
Qed.

Lemma arrayIncludes_false (arr : list string) (x : string) :
  JS.arrayIncludes arr x = false <-> x ∉ arr.
Proof.
  rewrite <- arrayIncludes_spec. destruct (JS.arrayIncludes arr x); split; congruence.
Qed.

(** Membership of a closed value in a closed list. *)
Ltac one_of_list :=
  repeat first [apply list_elem_of_here | apply list_elem_of_further].

(** ** Instance synthesizer *)

Section Classifier.
Import Synth.

(** The tags of the known set are told apart by [isTree] and [categoryOf]. *)
Lemma classifyTag_known (t : string) :
  t ∈ knownNonTreeTypes ->
  classifyTag t = nonTree (if String.eqb t "utilitypole" then "utilityPole"
                           else if String.eqb t "shrubbery" then "shrubbery"
                           else if String.eqb t "bench" then "bench"
                           else "default")
  /\ JS.includes "tree" t = false.
Proof.
  unfold knownNonTreeTypes. intros Hin.
  repeat (apply elem_of_cons in Hin as [-> | Hin]; [split; reflexivity |]).
  now apply elem_of_nil in Hin.
Qed.

Lemma classifyTag_tree (t : string) :
  classifyTag t = tree <->
  (exists before after, t = (before ++ "tree" ++ after)%string) \/ t ∉ knownNonTreeTypes.
Proof.
  rewrite <- includes_spec, <- arrayIncludes_false.
  unfold classifyTag, isTree.
  destruct (JS.includes "tree" t), (JS.arrayIncludes knownNonTreeTypes t); cbn;
    split; intros H; try reflexivity; try discriminate; auto.
  destruct H; discriminate.
Qed.

(** A raw tag that is not empty is classified as it stands; the empty tag
    is classified as "default", and neither tag is in the known set or
    contains "tree". *)
Lemma classify_unfold (rawType : string) :
  classify rawType = classifyTag (normalize rawType)
  \/ (rawType = "" /\ classify rawType = tree /\ normalize rawType = "").
Proof.
  destruct rawType as [|c r]; [right; repeat split; reflexivity | left; reflexivity].
Qed.

(** C1. The classifier is a total function of the raw tag. With the tag
    lower-cased and trimmed, it answers tree exactly when the tag
    contains "tree" or is outside the known set; utility-pole, shrubbery
    and bench exactly for "utilitypole", "shrubbery" and "bench"; and the
    default block exactly for the five other members of the known set.
    Its answer is always one of these five outcomes. *)
Theorem classify_total (rawType : string) :
  let nodeType := normalize rawType in
  (classify rawType = tree <->
     (exists before after, nodeType = (before ++ "tree" ++ after)%string)
     \/ nodeType ∉ knownNonTreeTypes)
  /\ (classify rawType = nonTree "utilityPole" <-> nodeType = "utilitypole")
  /\ (classify rawType = nonTree "shrubbery" <-> nodeType = "shrubbery")
  /\ (classify rawType = nonTree "bench" <-> nodeType = "bench")
  /\ (classify rawType = nonTree "default" <->
        nodeType ∈ ["hydrant"; "rock"; "illustration"; "adcolumn"; "ac_unit"])
  /\ classify rawType ∈ [tree; nonTree "shrubbery"; nonTree "utilityPole";
                         nonTree "bench"; nonTree "default"].
Proof.
  intros nodeType.
  destruct (classify_unfold rawType) as [-> | (_ & -> & Hempty)].
  - fold nodeType. generalize nodeType as t. clear nodeType. intros t.
    split; [apply classifyTag_tree|].
    destruct (decide (t ∈ knownNonTreeTypes)) as [Hin | Hout].
    + unfold knownNonTreeTypes in Hin.
      repeat (apply elem_of_cons in Hin as [-> | Hin];
              [ repeat split; try intros H; try reflexivity; try discriminate H;
                try (vm_compute in H; discriminate H);
                try (repeat (apply elem_of_cons in H as [H | H]; [discriminate H|]);
                     now apply elem_of_nil in H);
                try (apply arrayIncludes_spec; reflexivity);
                try (cbv [classifyTag isTree categoryOf]; cbn; one_of_list)
              | ]).
      now apply elem_of_nil in Hin.
    + assert (Htree : classifyTag t = tree) by (apply classifyTag_tree; now right).
      rewrite Htree.
      repeat split; try intros H; try discriminate H;
        try (exfalso; apply Hout; rewrite H; apply arrayIncludes_spec; reflexivity).
      * exfalso; apply Hout.
        repeat (apply elem_of_cons in H as [-> | H];
                [apply arrayIncludes_spec; reflexivity|]).
        now apply elem_of_nil in H.
      * one_of_list.
  - unfold nodeType. rewrite Hempty.
    repeat split; try intros H; try discriminate H; try one_of_list.
    + right. apply arrayIncludes_false. reflexivity.
    + repeat (apply elem_of_cons in H as [H | H]; [discriminate H|]).
      now apply elem_of_nil in H.
Qed.

End Classifier.

Example classify_examples :
  Synth.classify "Planter_01" = Synth.tree
  /\ Synth.classify " UtilityPole " = Synth.nonTree "utilityPole"
  /\ Synth.classify "" = Synth.tree
  /\ Synth.classify "Street_Tree" = Synth.tree
  /\ Synth.classify "ROCK" = Synth.nonTree "default".
Proof. repeat split; reflexivity. Qed.

Section Synthesis.
Import Synth.
Local Open Scope Q_scope.

(** [Math.max(scale || 1, 1)] is [Math.max(scale, 1)]. *)
Lemma effective_scale (s : Q) :
  JS.Math_max (JS.numOr (Some s) 1) 1 = JS.Math_max s 1.
Proof.
  unfold JS.numOr. destruct (Qeq_bool s 0) eqn:Hzero; [|reflexivity].
  apply Qeq_bool_eq in Hzero. unfold JS.Math_max.
  replace (Qle_bool s 1) with true; [reflexivity|].
  symmetry. apply Qle_bool_iff. rewrite Hzero. discriminate.
Qed.

(** Below 1 the effective scale is the number 1 itself. *)
Lemma effective_scale_floor (s : Q) : s < 1 -> JS.Math_max s 1 = 1.
Proof.
  intros Hlt. unfold JS.Math_max.
  replace (Qle_bool s 1) with true; [reflexivity|].
  symmetry. apply Qle_bool_iff. now apply Qlt_le_weak.
Qed.

(** C8. With an input scale [s], a tree node emits a trunk scaled by
    max(s, 1) times (0.0625, 0.125, 0.0625) and a foliage scaled by
    max(s, 1) times 0.156 and lifted by max(s, 1) times 0.156; every
    other node emits one instance scaled by max(s, 1) times 0.5. Hence a
    node with a scale below 1 emits exactly what it emits with scale 1. *)
Theorem scale_floor (it ty : option string) (px py pz : option Q) (s : Q) :
  let node := mkNode it ty px py pz (Some s) in
  let e := JS.Math_max s 1 in
  let x := JS.numOr px 0 in
  let y := JS.numOr py 0 in
  let z := JS.numOr pz 0 in
  synthesize node =
    match classifyTag (normalize (rawTypeOf node)) with
    | tree =>
        [ ("tree_trunk",
           mkInstance (mkVector3 x y z)
             (mkVector3 (e * 0.0625) (e * 0.125) (e * 0.0625)) "#5D4037");
          ("tree_foliage",
           mkInstance (mkVector3 x (y + e * 0.156) z)
             (mkVector3 (e * 0.156) (e * 0.156) (e * 0.156)) "#228B22") ]
    | nonTree category =>
        [ (category,
           mkInstance (mkVector3 x y z)
             (mkVector3 (e * 0.5) (e * 0.5) (e * 0.5))
             (infraColor (normalize (rawTypeOf node)) (rawTypeOf node))) ]
    end
  /\ (s < 1 -> synthesize node = synthesize (mkNode it ty px py pz (Some 1))).
Proof.
  intros node e x y z. split.
  - unfold synthesize. cbn [Synth.scale Synth.x Synth.y Synth.z node].
    rewrite effective_scale. reflexivity.
  - intros Hlt. unfold synthesize, node.
    cbn [Synth.scale Synth.x Synth.y Synth.z rawTypeOf Synth.instanceType Synth.type].
    rewrite !effective_scale, (effective_scale_floor s Hlt). reflexivity.
Qed.

(** The tree of the specification's example: scale 0.3 against scale 1. *)
Lemma scale_floor_witness :
  synthesize (mkNode None (Some "tree") (Some 2) (Some 0) (Some 5) (Some 0.3))
  = synthesize (mkNode None (Some "tree") (Some 2) (Some 0) (Some 5) (Some 1)).
Proof.
  apply (proj2 (scale_floor None (Some "tree") (Some 2) (Some 0) (Some 5) 0.3)).
  reflexivity.
Defined.

(** A node is only pushed to declared batches. *)
Lemma synthesize_keys (node : Node) :
  Forall (fun e => e.1 ∈ batchKeys) (synthesize node).
Proof.
  unfold synthesize, classifyTag. generalize (normalize (rawTypeOf node)) as t. intros t.
  destruct (isTree t).
  - apply Forall_cons; split; [cbn [fst]; unfold batchKeys; one_of_list|].
    apply Forall_cons; split; [cbn [fst]; unfold batchKeys; one_of_list | apply Forall_nil_2].
  - apply Forall_cons; split; [|apply Forall_nil_2]. cbn [fst]. unfold categoryOf.
    destruct (JS.arrayIncludes ["shrubbery"; "utilitypole"; "bench"] t) eqn:Hin;
      [|unfold batchKeys; one_of_list].
    apply arrayIncludes_spec in Hin.
    repeat (apply elem_of_cons in Hin as [-> | Hin]; [cbn; unfold batchKeys; one_of_list|]).
    now apply elem_of_nil in Hin.
Qed.

Lemma push_total (m : gmap string (list Instance)) (e : string * Instance) :
  hasBatches m -> e.1 ∈ batchKeys ->
  exists m', push m e = Some m' /\ hasBatches m'.
Proof.
  intros Hm He. unfold push.
  destruct (m !! e.1) as [items|] eqn:Hitems.
  - eexists. split; [reflexivity|]. unfold hasBatches in *.
    eapply Forall_impl; [exact Hm|]. intros key [v Hv]. cbn.
    destruct (decide (e.1 = key)) as [<- | Hne].
    + rewrite lookup_insert_eq. eauto.
    + rewrite lookup_insert_ne by exact Hne. eauto.
  - exfalso. unfold hasBatches in Hm. rewrite Forall_forall in Hm.
    destruct (Hm _ He) as [v Hv]. congruence.
Qed.

Lemma pushAll_total (es : list (string * Instance)) (m : gmap string (list Instance)) :
  hasBatches m -> Forall (fun e => e.1 ∈ batchKeys) es ->
  exists m', pushAll (Some m) es = Some m' /\ hasBatches m'.
Proof.
  revert m. induction es as [|e es IH]; intros m Hm Hes.
  - exists m. split; [reflexivity | exact Hm].
  - apply Forall_cons in Hes as [He Hes].
    destruct (push_total m e Hm He) as (m1 & Hpush & Hm1).
    unfold pushAll. cbn. rewrite Hpush. now apply IH.
Qed.

(** The node loop never throws: every push finds its batch. *)
Lemma ingestNodes_total (nodes : list Node) (m : gmap string (list Instance)) :
  hasBatches m -> exists m', ingestNodes nodes m = Some m' /\ hasBatches m'.
Proof.
  unfold ingestNodes. revert m. induction nodes as [|node nodes IH]; intros m Hm.
  - exists m. split; [reflexivity | exact Hm].
  - destruct (pushAll_total (synthesize node) m Hm (synthesize_keys node))
      as (m1 & Hpush & Hm1).
    cbn. rewrite Hpush. now apply IH.
Qed.

Lemma emptyInstances_hasBatches : hasBatches emptyInstances.
Proof. unfold hasBatches, batchKeys. repeat constructor; vm_compute; eauto. Qed.

(** C10. An absent coordinate reads as 0, an absent scale as 1 and an
    absent tag as "default", which is classified as a tree. The node
    without any field is pushed as a trunk at the origin with the base
    dimensions and a foliage lifted by 0.156 above it, into the two tree
    batches and nowhere else. The node loop fails on no list of nodes. *)
Theorem absent_fields_default (it ty : option string) (px py pz ps : option Q) :
  synthesize (mkNode it ty None py pz ps) = synthesize (mkNode it ty (Some 0) py pz ps)
  /\ synthesize (mkNode it ty px None pz ps) = synthesize (mkNode it ty px (Some 0) pz ps)
  /\ synthesize (mkNode it ty px py None ps) = synthesize (mkNode it ty px py (Some 0) ps)
  /\ synthesize (mkNode it ty px py pz None) = synthesize (mkNode it ty px py pz (Some 1))
  /\ synthesize (mkNode None None px py pz ps)
     = synthesize (mkNode None (Some "default") px py pz ps)
  /\ classify "default" = tree
  /\ synthesize bareNode = [("tree_trunk", bareTrunk); ("tree_foliage", bareFoliage)]
  /\ ingestNodes [bareNode] emptyInstances
     = Some (<["tree_trunk" := [bareTrunk]]>
               (<["tree_foliage" := [bareFoliage]]> emptyInstances))
  /\ (forall nodes, is_Some (ingestNodes nodes emptyInstances)).
Proof.
  repeat split; try reflexivity.
  intros nodes.
  destruct (ingestNodes_total nodes emptyInstances emptyInstances_hasBatches)
    as (m & -> & _).
  eauto.
Qed.

End Synthesis.

(** ** Layer manager *)

Section LayerVisibility.
Import Layers.

Lemma applyEntry_lookup (groups : gmap string Group) (e : string * Visible) (key : string) :
  applyEntry groups e !! key
  = (fun g => if decide (key = e.1) then groupAfter e g else g) <$> groups !! key.
Proof.
  unfold applyEntry. destruct (groups !! e.1) as [group|] eqn:Hgroup.
  - destruct (decide (key = e.1)) as [-> | Hne].
    + now rewrite lookup_insert_eq, Hgroup.
    + rewrite lookup_insert_ne by congruence. now destruct (groups !! key).
  - destruct (decide (key = e.1)) as [-> | Hne].
    + now rewrite Hgroup.
    + now destruct (groups !! key).
Qed.

Lemma foldl_applyEntry_lookup (es : list (string * Visible))
    (groups : gmap string Group) (key : string) :
  foldl applyEntry groups es !! key = groupAfterAll key es <$> groups !! key.
Proof.
  revert groups. induction es as [|e es IH]; intros groups; cbn.
  - now destruct (groups !! key).
  - rewrite IH, applyEntry_lookup. now destruct (groups !! key).
Qed.

Lemma applyVisibility_lookup (lv : LayerVisibility) (groups : gmap string Group)
    (key : string) :
  applyVisibility lv groups !! key = groupAfterAll key (entries lv) <$> groups !! key.
Proof. apply foldl_applyEntry_lookup. Qed.

Lemma setChildVisible_twice (s s' : SurfaceVisibility) (c : Child) :
  setChildVisible s' (setChildVisible s c) = setChildVisible s' c.
Proof. reflexivity. Qed.

(** The effect overwrites every flag it sets: what an earlier run left
    behind does not show. *)
Lemma groupAfterAll_twice (lv lv' : LayerVisibility) (key : string) (g : Group) :
  groupAfterAll key (entries lv') (groupAfterAll key (entries lv) g)
  = groupAfterAll key (entries lv') g.
Proof.
  unfold groupAfterAll, entries. cbn [foldl fst snd].
  repeat case_decide; subst; try discriminate; try reflexivity.
  unfold groupAfter. cbn. f_equal. rewrite map_map. apply map_ext.
  intros c. apply setChildVisible_twice.
Qed.

Lemma applyVisibility_twice (lv lv' : LayerVisibility) (groups : gmap string Group) :
  applyVisibility lv' (applyVisibility lv groups) = applyVisibility lv' groups.
Proof.
  apply map_eq. intros key. rewrite !applyVisibility_lookup.
  destruct (groups !! key) as [g|]; [|reflexivity].
  cbn [fmap option_fmap option_map]. f_equal. apply groupAfterAll_twice.
Qed.

Lemma toggleLayer_twice (id : LayerId) (lv : LayerVisibility) :
  toggleLayer id (toggleLayer id lv) = lv.
Proof.
  destruct lv as [b [g subs] v i ba t], id; cbn; now rewrite negb_involutive.
Qed.

Lemma toggleLayer_flips (id : LayerId) (lv : LayerVisibility) :
  layerIsVisible id (toggleLayer id lv) = negb (layerIsVisible id lv).
Proof. now destruct id. Qed.

Lemma groupAfterAll_geometry (lv : LayerVisibility) (key : string) (g : Group) :
  map geometry (children (groupAfterAll key (entries lv) g)) = map geometry (children g)
  /\ map subtype (children (groupAfterAll key (entries lv) g)) = map subtype (children g).
Proof.
  unfold groupAfterAll, entries. cbn [foldl fst snd].
  repeat case_decide; subst; try discriminate; try (split; reflexivity).
  unfold groupAfter. cbn. rewrite !map_map. split; reflexivity.
Qed.

Lemma applyVisibility_geometry (lv : LayerVisibility) (groups : gmap string Group) :
  geometryOf (applyVisibility lv groups) = geometryOf groups.
Proof.
  apply map_eq. intros key. unfold geometryOf.
  rewrite !lookup_fmap, applyVisibility_lookup.
  destruct (groups !! key) as [g|]; [|reflexivity].
  cbn [fmap option_fmap option_map]. f_equal. apply groupAfterAll_geometry.
Qed.

Lemma surface_group_after (lv : LayerVisibility) (g : Group) :
  groupAfterAll "surface" (entries lv) g
  = mkGroup (_group (surface lv))
            (map (setChildVisible (surface lv)) (children g)).
Proof.
  unfold groupAfterAll, entries. cbn [foldl fst snd].
  repeat case_decide; try discriminate; try congruence. reflexivity.
Qed.

(** C6. After the layer-visibility effect ran with a visibility state,
    a child of the surface group is drawn exactly when the [_group] flag
    of the state is set and the flag of the child's subtype is set, a
    subtype without flag counting as set. *)
Theorem surface_child_drawn (lv : LayerVisibility) (groups : gmap string Group)
    (group : Group) (child : Child) :
  applyVisibility lv groups !! "surface" = Some group ->
  child ∈ children group ->
  drawn group child
  = _group (surface lv)
    && default true (surfaceGet (surface lv) (JS.strOr (subtype child) "default")).
Proof.
  intros Hgroup Hchild. rewrite applyVisibility_lookup in Hgroup.
  destruct (groups !! "surface") as [g|]; [|discriminate].
  cbn [fmap option_fmap option_map] in Hgroup. rewrite surface_group_after in Hgroup.
  injection Hgroup as <-.
  cbn [children] in Hchild. apply list_elem_of_fmap in Hchild as (c & -> & _).
  unfold drawn, setChildVisible, isSubVisible. cbn.
  now destruct (surfaceGet (surface lv) (JS.strOr (subtype c) "default")).
Qed.

(** C7. From any visibility state and any layer groups to which it was
    applied, toggling a layer and applying, then toggling it again and
    applying, gives back the layer groups as they were, flag by flag, and
    so the same primitives drawn; the first toggle does flip the layer.
    Applying a visibility state keeps the geometry buffers and subtypes
    of every layer, in order. *)
Theorem toggle_twice_restores (id : LayerId) (lv : LayerVisibility)
    (groups : gmap string Group) :
  let g0 := applyVisibility lv groups in
  let lv1 := toggleLayer id lv in
  let g1 := applyVisibility lv1 g0 in
  let lv2 := toggleLayer id lv1 in
  let g2 := applyVisibility lv2 g1 in
  layerIsVisible id lv1 = negb (layerIsVisible id lv)
  /\ lv2 = lv
  /\ g2 = g0
  /\ visiblePrimitives g2 = visiblePrimitives g0
  /\ geometryOf g1 = geometryOf groups
  /\ geometryOf g2 = geometryOf groups
  /\ dom g1 = dom groups.
Proof.
  intros g0 lv1 g1 lv2 g2.
  assert (Hlv : lv2 = lv) by apply toggleLayer_twice.
  assert (Hg : g2 = g0).
  { unfold g2, g1, g0. rewrite Hlv. now rewrite !applyVisibility_twice. }
  repeat split.
  - apply toggleLayer_flips.
  - exact Hlv.
  - exact Hg.
  - now rewrite Hg.
  - unfold g1, g0. now rewrite !applyVisibility_geometry.
  - unfold g2, g1, g0. now rewrite !applyVisibility_geometry.
  - apply set_eq. intros key. rewrite !elem_of_dom. unfold g1, g0.
    rewrite !applyVisibility_lookup. rewrite <- !not_eq_None_Some.
    now destruct (groups !! key).
Qed.

Lemma surface_child_drawn_witness :
  drawn (mkGroup true [mkChild false (Some "footway") 1; plazaMesh])
        (mkChild false (Some "footway") 1)
  = _group (surface footwayOff)
    && default true (surfaceGet (surface footwayOff) (JS.strOr (Some "footway") "default")).
Proof.
  apply (surface_child_drawn footwayOff surfaceOnly
           (mkGroup true [mkChild false (Some "footway") 1; plazaMesh])
           (mkChild false (Some "footway") 1)).
  - vm_compute. reflexivity.
  - apply list_elem_of_here.
Defined.

End LayerVisibility.

(** ** Climate fetch *)

Section ClimateFetch.
Import Climate.

(** C2, as stated, fails: after payload A was replaced by payload B, the
    fetch started for A (generation 1) is still pending at generation 2,
    and its result becomes the climate state. *)
Lemma stale_result_is_stored :
  sceneGeneration reloaded = 2
  /\ pending reloaded !! 0 = Some (mkRequest 1 48.85 2.35)
  /\ climateData reloaded = None
  /\ climateData (step reloaded (ClimateArrived 0 (Some breeze))) = Some breeze
  /\ ~ discardsStale reloaded 0 (Some breeze).
Proof.
  repeat split; try reflexivity.
  intros Hclaim. specialize (Hclaim (mkRequest 1 48.85 2.35) eq_refl).
  cbn in Hclaim. discriminate Hclaim. lia.
Qed.

(** C2, amended. The arrival of a climate result does not look at the
    scene generation: a result that is not null replaces the climate
    state whatever generation its fetch was started for, a null result
    leaves the climate state as it is; the generation is untouched and
    the fetch is no longer pending. Loading a payload while the preview
    is open adds one to the generation and keeps the climate state. *)
Theorem climate_result_stored (s : State) (i : nat) (req : Request)
    (result : option ClimateData) :
  pending s !! i = Some req ->
  let s' := step s (ClimateArrived i result) in
  climateData s' = match result with
                   | Some data => Some data
                   | None => climateData s
                   end
  /\ sceneGeneration s' = sceneGeneration s
  /\ pending s' = delete i (pending s)
  /\ (forall payload,
        sceneGeneration (step s (GeometryChanged (Some payload)))
        = (if isOpen s then S (sceneGeneration s) else sceneGeneration s)
        /\ climateData (step s (GeometryChanged (Some payload))) = climateData s).
Proof.
  intros Hreq. cbn. unfold onClimateArrived. rewrite Hreq. cbn.
  repeat split; reflexivity.
Qed.

Lemma climate_result_stored_witness :
  climateData (step reloaded (ClimateArrived 0 (Some breeze))) = Some breeze.
Proof.
  apply (climate_result_stored reloaded 0 (mkRequest 1 48.85 2.35) (Some breeze)).
  reflexivity.
Defined.

End ClimateFetch.

(** ** Solar path *)

Section SolarPath.
Import Overlays.
Local Open Scope Q_scope.

(** Once the loop has stopped by its own test, more iterations were not
    needed. *)
Lemma hoursFrom_more (k n : nat) (h : Q) :
  (length (hoursFrom k h) < k)%nat -> hoursFrom (k + n) h = hoursFrom k h.
Proof.
  revert h. induction k as [|k IH]; intros h Hlen; [cbn in Hlen; lia|].
  cbn [hoursFrom Nat.add] in *. destruct (Qle_bool h 20); [|reflexivity].
  cbn [length] in Hlen. f_equal. apply IH. lia.
Qed.

(** The loop runs 65 times and then stops: whatever bound above 65 is
    put on it, it yields the same hours. *)
Lemma sampleHours_total (n : nat) : hoursFrom (66 + n) 4 = sampleHours.
Proof.
  rewrite hoursFrom_more by (vm_compute; lia).
  symmetry. apply (hoursFrom_more 66 34). vm_compute. lia.
Qed.

(** The wall-clock times of the samples: every quarter of an hour from
    04:00 to 20:00. *)
Lemma sample_times (now : Date) :
  map (fun h => (hours (atHour h now), minutes (atHour h now))) sampleHours
  = (flat_map (fun h => map (fun m => (h, m)) [0; 15; 30; 45]%Z)
              (map Z.of_nat (seq 4 16)) ++ [(20, 0)%Z])%list.
Proof. vm_compute. reflexivity. Qed.

Lemma Qgt_bool_iff (a b : Q) : Qgt_bool a b = true <-> b < a.
Proof.
  unfold Qgt_bool. rewrite negb_true_iff, <- not_true_iff_false, Qle_bool_iff.
  split; [apply Qnot_le_lt | apply Qlt_not_le].
Qed.

(** C4, as stated, fails: with the sun exactly at -0.1 rad at 04:00 and
    high afterwards, the arc is drawn, the 04:00 sample has an altitude
    of at least -0.1 rad, and it is not among the samples kept. *)
Lemma cutoff_sample_dropped :
  let sampled := map (fun h => atHour h morning) sampleHours in
  let d := atHour 4 morning in
  In d sampled
  /\ - 0.1 <= altitude (cutoffAtFour d 0 0)
  /\ pathLine cutoffAtFour morning 0 0 = Some (keptSamples cutoffAtFour morning 0 0)
  /\ ~ In d (keptSamples cutoffAtFour morning 0 0).
Proof.
  cbv zeta. repeat split.
  - left. reflexivity.
  - vm_compute. discriminate.
  - intros Hin. apply filter_In in Hin as [_ Hkept]. vm_compute in Hkept.
    discriminate Hkept.
Qed.

(** C4, amended. The samples are the quarter hours from 04:00 to 20:00,
    and a sample is kept exactly when its altitude is strictly above
    -0.1 rad: an altitude of -0.1 rad or less excludes it. The kept
    samples stay in time order, and the arc is drawn from them when
    there are at least two. *)
Theorem kept_samples_strict (getPosition : Date -> Q -> Q -> SunPosition)
    (now : Date) (lat lon : Q) (d : Date) :
  let sampled := map (fun h => atHour h now) sampleHours in
  (In d (keptSamples getPosition now lat lon)
     <-> In d sampled /\ - 0.1 < altitude (getPosition d lat lon))
  /\ (altitude (getPosition d lat lon) <= - 0.1
        -> ~ In d (keptSamples getPosition now lat lon))
  /\ map (fun d => (hours d, minutes d)) sampled
     = (flat_map (fun h => map (fun m => (h, m)) [0; 15; 30; 45]%Z)
                 (map Z.of_nat (seq 4 16)) ++ [(20, 0)%Z])%list
  /\ keptSamples getPosition now lat lon
     = List.filter (fun d => Qgt_bool (altitude (getPosition d lat lon)) (- 0.1)) sampled
  /\ pathLine getPosition now lat lon
     = (if (1 <? length (keptSamples getPosition now lat lon))%nat
        then Some (keptSamples getPosition now lat lon) else None).
Proof.
  cbv zeta. unfold keptSamples.
  assert (Hiff : forall e,
             In e (List.filter (fun d => Qgt_bool (altitude (getPosition d lat lon)) (- 0.1))
                               (map (fun h => atHour h now) sampleHours))
             <-> In e (map (fun h => atHour h now) sampleHours)
                 /\ - 0.1 < altitude (getPosition e lat lon)).
  { intros e. rewrite filter_In, Qgt_bool_iff. reflexivity. }
  split; [apply Hiff|]. split; [|split; [|split; reflexivity]].
  - intros Hle Hin. apply Hiff in Hin as [_ Hlt].
    exact (Qlt_not_le _ _ Hlt Hle).
  - rewrite map_map. apply sample_times.
Qed.

Lemma kept_samples_strict_witness :
  ~ In (atHour 4 morning) (keptSamples cutoffAtFour morning 0 0).
Proof.
  apply (proj1 (proj2 (kept_samples_strict cutoffAtFour morning 0 0 (atHour 4 morning)))).
  vm_compute. discriminate.
Defined.

End SolarPath.

(** ** Map-tile underlay *)

Section TileCap.
Import Scene3D Tiles.

Variables (z : Z) (cx cy mpp : Q).

Lemma schedule_invariant (a b : Z) (st : LoopState) :
  loopInvariant z st -> (loadedCount st < 300)%Z ->
  loopInvariant z (schedule z cx cy mpp a b st)
  /\ loadedCount (schedule z cx cy mpp a b st) = (loadedCount st + 1)%Z.
Proof.
  intros (Hlen & Hcap & Hzoom) Hlt. unfold loopInvariant, schedule. cbn.
  rewrite length_app, Forall_app. cbn. repeat split; try lia; try exact Hzoom.
  repeat constructor.
Qed.

Lemma innerLoop_spec (n : nat) (a b : Z) (st : LoopState) :
  loopInvariant z st ->
  loopInvariant z (innerLoop z cx cy mpp n a b st)
  /\ loadedCount (innerLoop z cx cy mpp n a b st)
     = Z.min 300 (loadedCount st + Z.of_nat n).
Proof.
  revert b st. induction n as [|n IH]; intros b st Hinv.
  - cbn. split; [exact Hinv|]. destruct Hinv as (_ & Hcap & _). lia.
  - cbn [innerLoop]. destruct (300 <=? loadedCount st)%Z eqn:Hfull.
    + split; [exact Hinv|]. destruct Hinv as (_ & Hcap & _). lia.
    + apply Z.leb_gt in Hfull.
      destruct (schedule_invariant a b st Hinv Hfull) as [Hinv' Hcount].
      destruct (IH (b + 1)%Z _ Hinv') as [Hinv'' Hcount''].
      split; [exact Hinv''|]. rewrite Hcount'', Hcount. lia.
Qed.

Lemma outerLoop_spec (m : nat) (a lo hi : Z) (st : LoopState) :
  loopInvariant z st ->
  loopInvariant z (outerLoop z cx cy mpp m a lo hi st)
  /\ loadedCount (outerLoop z cx cy mpp m a lo hi st)
     = Z.min 300 (loadedCount st + Z.of_nat m * Z.of_nat (Z.to_nat (hi - lo + 1))).
Proof.
  revert a st. induction m as [|m IH]; intros a st Hinv.
  - cbn [outerLoop]. split; [exact Hinv|]. destruct Hinv as (_ & Hcap & _). lia.
  - cbn [outerLoop].
    destruct (innerLoop_spec (Z.to_nat (hi - lo + 1)) a lo st Hinv) as [Hinv' Hcount'].
    destruct (IH (a + 1)%Z _ Hinv') as [Hinv'' Hcount''].
    split; [exact Hinv''|]. rewrite Hcount'', Hcount'.
    assert (HN : (0 <= Z.of_nat (Z.to_nat (hi - lo + 1)))%Z) by lia.
    revert HN. generalize (Z.of_nat (Z.to_nat (hi - lo + 1))) as N. intros N HN.
    assert (Hp : (0 <= Z.of_nat m * N)%Z) by lia.
    replace (Z.of_nat (S m) * N)%Z with (N + Z.of_nat m * N)%Z by lia.
    revert Hp. generalize (Z.of_nat m * N)%Z as p. intros p Hp. lia.
Qed.

(** The two loops schedule the whole padded grid, or 300 tiles when the
    grid is larger. *)
Lemma loadTiles_spec (a b c d : Z) :
  let st := loadTiles z cx cy mpp a b c d in
  loopInvariant z st
  /\ ((a <= b)%Z -> (c <= d)%Z ->
      Z.of_nat (length (scheduled st)) = Z.min 300 (tileCountOf a b c d)).
Proof.
  cbv zeta. unfold loadTiles.
  assert (Hinit : loopInvariant z (mkLoopState 0 [])).
  { unfold loopInvariant. cbn. repeat split; try lia. constructor. }
  destruct (outerLoop_spec (Z.to_nat (b + pad - (a - pad) + 1)) (a - pad)
              (c - pad) (d + pad) _ Hinit) as [Hinv Hcount].
  split; [exact Hinv|]. intros Hab Hcd.
  destruct Hinv as (Hlen & _ & _). rewrite Hlen, Hcount.
  unfold tileCountOf, pad in *. cbn [loadedCount].
  rewrite !Z2Nat.id by lia. f_equal. lia.
Qed.

End TileCap.

Section MapUnderlay.
Import Scene3D Tiles.

Variables Math_cos Math_tan Math_log Math_log2 : Q -> Q.
Variable Math_PI : Q.

Let effect := mapUnderlayEffect Math_cos Math_tan Math_log Math_log2 Math_PI.
Let grid := gridOf Math_cos Math_tan Math_log Math_log2 Math_PI.

Lemma clampZoom_range (targetZoom : Z) : (15 <= clampZoom targetZoom <= 19)%Z.
Proof. unfold clampZoom. lia. Qed.

Lemma grid_zoom_range (lat lon : Q) (mn mx : Vector3) :
  (15 <= zoom (grid lat lon mn mx) <= 19)%Z.
Proof. apply clampZoom_range. Qed.

Lemma tilesOf_spec (g : Grid) :
  (length (tilesOf g) <= 300)%nat
  /\ Forall (fun t => tile_zoom t = zoom g) (tilesOf g)
  /\ ((minTx g <= maxTx g)%Z -> (minTy g <= maxTy g)%Z ->
      Z.of_nat (length (tilesOf g)) = Z.min 300 (tileCount g)).
Proof.
  unfold tilesOf, tileCount.
  destruct (loadTiles_spec (zoom g) (centerPixelX g) (centerPixelY g) (metersPerPixel g)
              (minTx g) (maxTx g) (minTy g) (maxTy g)) as [(Hlen & Hcap & Hzoom) Hexact].
  repeat split; [lia | exact Hzoom | exact Hexact].
Qed.

(** The effect, unfolded on the path that loads tiles. *)
Lemma effect_loads (r : Refs) (geometryData : option ApiResponse)
    (scene : Scene) (meshGroup : MeshGroup) (lat lon : Q) (mn mx : Vector3) :
  sceneRef r = Some scene -> meshGroupRef r = Some meshGroup ->
  originOf geometryData = Some (lat, lon) ->
  setFromObject meshGroup = Box mn mx -> isEmpty (Box mn mx) = false ->
  let g := grid lat lon mn mx in
  warnings (effect true geometryData r)
    = (if (300 <? tileCount g)%Z then [tileCount g] else [])
  /\ requests (effect true geometryData r) = tilesOf g.
Proof.
  intros Hscene Hmesh Horigin Hbox Hfull. unfold effect, mapUnderlayEffect.
  rewrite Hscene, Hmesh, Horigin, Hbox, Hfull. split; reflexivity.
Qed.

(** C5. One run of the map-underlay effect hands at most 300 tiles to
    the loader, whatever its inputs, and each of them at a zoom between
    15 and 19; a warning is only logged for a tile count above 300. On
    the path that loads tiles, the zoom lies between 15 and 19, the
    warning is logged exactly when the padded grid counts more than 300
    tiles, and the whole grid is loaded, or 300 tiles of it when it is
    larger. The effect is a total function: no input makes it fail. *)
Theorem tile_cap (showMapUnderlay : bool) (geometryData : option ApiResponse)
    (r : Refs) :
  let res := effect showMapUnderlay geometryData r in
  (length (requests res) <= 300)%nat
  /\ Forall (fun t => 15 <= tile_zoom t <= 19)%Z (requests res)
  /\ Forall (fun w => 300 < w)%Z (warnings res)
  /\ (forall targetZoom, 15 <= clampZoom targetZoom <= 19)%Z
  /\ (forall scene meshGroup lat lon mn mx,
        showMapUnderlay = true ->
        sceneRef r = Some scene -> meshGroupRef r = Some meshGroup ->
        originOf geometryData = Some (lat, lon) ->
        setFromObject meshGroup = Box mn mx -> isEmpty (Box mn mx) = false ->
        let g := grid lat lon mn mx in
        (15 <= zoom g <= 19)%Z
        /\ warnings res = (if (300 <? tileCount g)%Z then [tileCount g] else [])
        /\ requests res = tilesOf g
        /\ ((minTx g <= maxTx g)%Z -> (minTy g <= maxTy g)%Z ->
            Z.of_nat (length (requests res)) = Z.min 300 (tileCount g))).
Proof.
  cbv zeta.
  assert (Hmain : forall scene meshGroup lat lon mn mx,
             showMapUnderlay = true ->
             sceneRef r = Some scene -> meshGroupRef r = Some meshGroup ->
             originOf geometryData = Some (lat, lon) ->
             setFromObject meshGroup = Box mn mx -> isEmpty (Box mn mx) = false ->
             warnings (effect showMapUnderlay geometryData r)
               = (if (300 <? tileCount (grid lat lon mn mx))%Z
                  then [tileCount (grid lat lon mn mx)] else [])
             /\ requests (effect showMapUnderlay geometryData r)
                = tilesOf (grid lat lon mn mx)).
  { intros scene meshGroup lat lon mn mx -> Hscene Hmesh Horigin Hbox Hfull.
    now apply (effect_loads r geometryData scene meshGroup). }
  assert (Hquiet :
            (requests (effect showMapUnderlay geometryData r) = []
             /\ warnings (effect showMapUnderlay geometryData r) = [])
            \/ exists scene meshGroup lat lon mn mx,
                 showMapUnderlay = true /\ sceneRef r = Some scene
                 /\ meshGroupRef r = Some meshGroup
                 /\ originOf geometryData = Some (lat, lon)
                 /\ setFromObject meshGroup = Box mn mx
                 /\ isEmpty (Box mn mx) = false).
  { unfold effect, mapUnderlayEffect.
    destruct (sceneRef r) as [scene|]; [|left; split; reflexivity].
    destruct (meshGroupRef r) as [meshGroup|]; [|left; split; reflexivity].
    destruct (originOf geometryData) as [[lat lon]|]; [|left; split; reflexivity].
    destruct showMapUnderlay; [|left; split; reflexivity].
    destruct (setFromObject meshGroup) as [|mn mx] eqn:Hbox; [left; split; reflexivity|].
    destruct (isEmpty (Box mn mx)) eqn:Hfull; [left; split; reflexivity|].
    right. exists scene, meshGroup, lat, lon, mn, mx. repeat split; assumption. }
  split; [|split; [|split; [|split]]].
  - destruct Hquiet as [[-> _] | (scene & meshGroup & lat & lon & mn & mx & H)].
    + cbn. lia.
    + destruct H as (Hshow & Hscene & Hmesh & Horigin & Hbox & Hfull).
      destruct (Hmain _ _ _ _ _ _ Hshow Hscene Hmesh Horigin Hbox Hfull) as [_ ->].
      apply tilesOf_spec.
  - destruct Hquiet as [[-> _] | (scene & meshGroup & lat & lon & mn & mx & H)].
    + constructor.
    + destruct H as (Hshow & Hscene & Hmesh & Horigin & Hbox & Hfull).
      destruct (Hmain _ _ _ _ _ _ Hshow Hscene Hmesh Horigin Hbox Hfull) as [_ ->].
      eapply Forall_impl; [apply tilesOf_spec|].
      intros t Ht. cbv beta in Ht. rewrite Ht. apply (grid_zoom_range lat lon mn mx).
  - destruct Hquiet as [[_ ->] | (scene & meshGroup & lat & lon & mn & mx & H)].
    + constructor.
    + destruct H as (Hshow & Hscene & Hmesh & Horigin & Hbox & Hfull).
      destruct (Hmain _ _ _ _ _ _ Hshow Hscene Hmesh Horigin Hbox Hfull) as [-> _].
      destruct (300 <? tileCount (grid lat lon mn mx))%Z eqn:Hmany; constructor.
      * now apply Z.ltb_lt.
      * constructor.
  - apply clampZoom_range.
  - intros scene meshGroup lat lon mn mx Hshow Hscene Hmesh Horigin Hbox Hfull.
    destruct (Hmain _ _ _ _ _ _ Hshow Hscene Hmesh Horigin Hbox Hfull) as [Hwarn Hreq].
    split; [apply grid_zoom_range|]. split; [exact Hwarn|]. split; [exact Hreq|].
    rewrite Hreq. apply tilesOf_spec.
Qed.

End MapUnderlay.

Lemma tile_cap_witness :
  let res := Tiles.mapUnderlayEffect Tiles.cosAtEquator Tiles.tanAtEquator Tiles.logOfOne
               Tiles.log2Wide 3.14159 true (Some Tiles.atEquator) Tiles.wideRefs in
  (15 <= Tiles.zoom Tiles.wideGrid <= 19)%Z
  /\ Tiles.warnings res
     = (if (300 <? Tiles.tileCount Tiles.wideGrid)%Z
        then [Tiles.tileCount Tiles.wideGrid] else [])
  /\ Tiles.requests res = Tiles.tilesOf Tiles.wideGrid
  /\ ((Tiles.minTx Tiles.wideGrid <= Tiles.maxTx Tiles.wideGrid)%Z ->
      (Tiles.minTy Tiles.wideGrid <= Tiles.maxTy Tiles.wideGrid)%Z ->
      Z.of_nat (length (Tiles.requests res)) = Z.min 300 (Tiles.tileCount Tiles.wideGrid)).
Proof.
  refine (proj2 (proj2 (proj2 (proj2
            (tile_cap Tiles.cosAtEquator Tiles.tanAtEquator Tiles.logOfOne Tiles.log2Wide
               3.14159 true (Some Tiles.atEquator) Tiles.wideRefs))))
            Scene3D.newScene Tiles.wideSite 0%Q 10%Q
            (mkVector3 0 0 0) (mkVector3 5000 10 5000) _ _ _ _ _ _);
    reflexivity.
Defined.

(** ** Overlays on a scene without geometry *)

Section EmptyScene.
Import Scene3D Overlays.

Variable instancedBox : string -> list Synth.Instance -> Box3.
Variable getPosition : Date -> Q -> Q -> SunPosition.
Variables Math_cos Math_tan Math_log Math_log2 : Q -> Q.
Variable Math_PI : Q.

Lemma nodeCount_solarHelper (now : Date) (lat lon : Q) :
  (13 <= nodeCount (solarHelper getPosition now lat lon))%nat.
Proof.
  unfold solarHelper.
  destruct (pathLine getPosition now lat lon); cbn; lia.
Qed.

(** C3 at a payload with an origin and an empty [geometry] array. The
    geometry effect leaves a mesh group without drawable descendant, whose
    bounding box is empty, and no overlay node. On these refs the sun
    study and the map underlay add no node, and the solar path adds none
    when the payload has no origin; but the solar path, switched on for a
    payload with an origin, adds its helper of at least 13 nodes, and the
    wind field, switched on with a climate result at hand, adds its
    helper of 37 nodes. *)
Theorem overlays_on_empty_scene (lat lon timeOfDay : Q) (now : Date)
    (climate : ClimateData) :
  let payload := mkApiResponse (Some (lat, lon)) [] in
  let meshGroup := emptyMeshGroup in
  let r := afterGeometryEffect meshGroup noRefs in
  Ingest.meshGroupOf instancedBox payload = Some meshGroup
  /\ isEmpty (setFromObject meshGroup) = true
  /\ overlayNodes r = 0%nat
  /\ overlayNodes (sunStudyEffect getPosition timeOfDay (Some payload) true true now r)
     = 0%nat
  /\ overlayNodes (Tiles.refs (Tiles.mapUnderlayEffect Math_cos Math_tan Math_log
                                 Math_log2 Math_PI true (Some payload) r)) = 0%nat
  /\ overlayNodes (solarPathEffect getPosition true timeOfDay
                     (Some (mkApiResponse None [])) now r) = 0%nat
  /\ (13 <= overlayNodes (solarPathEffect getPosition true timeOfDay (Some payload) now r))%nat
  /\ overlayNodes (windEffect true (Some climate) timeOfDay r) = 37%nat.
Proof.
  cbv zeta. repeat split; try reflexivity.
  pose proof (nodeCount_solarHelper now lat lon) as Hhelper.
  change (13 <= nodeCount (solarHelper getPosition now lat lon) + 0 + 0)%nat. lia.
Qed.

End EmptyScene.

(** ** Render capture *)

Section RenderCapture.
Import Scene3D Capture.

(** When the frame is captured, the view is back to what it was before
    the downstream calls start, whatever they answer. *)
Lemma capture_restores_view (apiKey : option string) (w : World) (s : State)
    (dataUrl : string) :
  firstRender w = Returns tt -> toDataURL w = Returns dataUrl ->
  is_Some (cameraRef (view s)) ->
  view (handleRender true apiKey w s) = view s.
Proof.
  intros Hrender Hdata [aspect Hcamera]. unfold handleRender.
  destruct (negb true || negb (bool_decide (is_Some apiKey))
            || bool_decide (apiKey = Some "")); [reflexivity|].
  unfold tryCatchFinally, tryBlock, bind, get, call, modifyView, modifyUi, when, ret.
  destruct s as [[size camera scene solar wind tg] u]. cbn in Hcamera. subst camera.
  destruct solar as [[k v c]|], wind as [[k' v' c']|], scene;
    cbn; rewrite ?Hrender, ?Hdata; cbn;
    try (destruct (secondRender w) as [[]|e2]; cbn; [|reflexivity]);
    (destruct (fetchBlob w) as [blob|e3]; cbn; [|reflexivity]);
    (destruct (generateRender w) as [result|e4]; cbn; [|reflexivity]);
    destruct (success result); reflexivity.
Qed.

(** C9 at a capture that fails. With both helpers shown and the canvas
    refusing the read-back, [handleRender] ends with the error reported
    and the rendering flag cleared, but the renderer is left at the
    capture size 1376 x 768, the camera at the capture aspect, and both
    helpers hidden; only the overlay toggles are as before. *)
Theorem capture_failure_not_restored :
  let s' := handleRender true (Some "key") readbackFails idle in
  rendererSize (view idle) = (800, 600)%Q
  /\ option_map obj_visible (solarHelperRef (view idle)) = Some true
  /\ option_map obj_visible (windHelperRef (view idle)) = Some true
  /\ rendererSize (view s') = (1376, 768)%Q
  /\ cameraRef (view s') = Some (1376 / 768)%Q
  /\ option_map obj_visible (solarHelperRef (view s')) = Some false
  /\ option_map obj_visible (windHelperRef (view s')) = Some false
  /\ toggles (view s') = toggles (view idle)
  /\ renderError (ui s') = Some "SecurityError"
  /\ isRendering (ui s') = false
  /\ view s' <> view idle.
Proof.
  cbv zeta. repeat split; try reflexivity.
  intros Heq. apply (f_equal rendererSize) in Heq. vm_compute in Heq.
  discriminate Heq.
Qed.

End RenderCapture.

(** * Further properties of the component *)

(** ** Instanced batches *)

Section BatchContents.
Import Synth Batches.

Lemma push_lookup (m m' : gmap string (list Instance)) (e : string * Instance)
    (key : string) :
  push m e = Some m' ->
  m' !! key = (fun items => items ++ pushedTo key [e]) <$> m !! key.
Proof.
  unfold push, pushedTo. destruct (m !! e.1) as [items|] eqn:Hitems; [|discriminate].
  intros [= <-]. cbn [List.filter]. destruct (String.eqb_spec e.1 key) as [<- | Hne].
  - rewrite lookup_insert_eq, Hitems. reflexivity.
  - rewrite lookup_insert_ne by exact Hne. destruct (m !! key); cbn; [|reflexivity].
    now rewrite app_nil_r.
Qed.

Lemma pushedTo_app (key : string) (es es' : list (string * Instance)) :
  pushedTo key (es ++ es') = pushedTo key es ++ pushedTo key es'.
Proof. unfold pushedTo. now rewrite List.filter_app, map_app. Qed.

Lemma pushAll_lookup (es : list (string * Instance)) (m m' : gmap string (list Instance))
    (key : string) :
  pushAll (Some m) es = Some m' ->
  m' !! key = (fun items => items ++ pushedTo key es) <$> m !! key.
Proof.
  revert m. induction es as [|e es IH]; intros m Hpush.
  - injection Hpush as <-. destruct (m !! key); cbn; [|reflexivity].
    unfold pushedTo. cbn. now rewrite app_nil_r.
  - unfold pushAll in Hpush. cbn in Hpush.
    destruct (push m e) as [m1|] eqn:Hm1.
    + rewrite (IH m1 Hpush), (push_lookup m m1 e key Hm1).
      change (e :: es) with ([e] ++ es). rewrite pushedTo_app.
      destruct (m !! key); cbn; [|reflexivity]. now rewrite app_assoc.
    + exfalso. clear -Hpush. induction es as [|e' es IH]; [discriminate|].
      apply IH. exact Hpush.
Qed.

Lemma pushAll_None (es : list (string * Instance)) : pushAll None es = None.
Proof. induction es as [|e es IH]; [reflexivity | exact IH]. Qed.

Lemma ingestNodes_lookup (nodes : list Node) (m m' : gmap string (list Instance))
    (key : string) :
  ingestNodes nodes m = Some m' ->
  m' !! key = (fun items => items ++ pushedTo key (flat_map synthesize nodes)) <$> m !! key.
Proof.
  unfold ingestNodes. revert m. induction nodes as [|node nodes IH]; intros m Hin.
  - injection Hin as <-. destruct (m !! key); cbn; [|reflexivity].
    unfold pushedTo. cbn. now rewrite app_nil_r.
  - cbn [foldl flat_map] in *.
    destruct (pushAll (Some m) (synthesize node)) as [m1|] eqn:Hm1.
    + rewrite (IH m1 Hin), (pushAll_lookup _ m m1 key Hm1), pushedTo_app.
      destruct (m !! key); cbn; [|reflexivity]. now rewrite app_assoc.
    + exfalso. clear -Hin. induction nodes as [|n ns IHn]; [discriminate|].
      cbn in Hin. rewrite pushAll_None in Hin. exact (IHn Hin).
Qed.

Lemma pushedTo_trees (nodes : list Node) :
  length (pushedTo "tree_trunk" (flat_map synthesize nodes))
  = length (List.filter isTreeNode nodes)
  /\ length (pushedTo "tree_foliage" (flat_map synthesize nodes))
     = length (List.filter isTreeNode nodes).
Proof.
  induction nodes as [|node nodes [IHt IHf]]; [split; reflexivity|].
  cbn [flat_map List.filter]. rewrite !pushedTo_app, !length_app, IHt, IHf.
  unfold isTreeNode, synthesize, classifyTag.
  destruct (isTree (normalize (rawTypeOf node))) eqn:Htree; [split; reflexivity|].
  assert (Hcat : categoryOf (normalize (rawTypeOf node))
                 ∈ ["shrubbery"; "utilityPole"; "bench"; "default"]).
  { unfold categoryOf.
    destruct (JS.arrayIncludes ["shrubbery"; "utilitypole"; "bench"]
                (normalize (rawTypeOf node))) eqn:Hin; [|one_of_list].
    apply arrayIncludes_spec in Hin.
    repeat (apply elem_of_cons in Hin as [-> | Hin]; [cbn; one_of_list|]).
    now apply elem_of_nil in Hin. }
  repeat (apply elem_of_cons in Hcat as [-> | Hcat]; [split; reflexivity|]).
  now apply elem_of_nil in Hcat.
Qed.

(** X1. The node loop loses, duplicates and reorders nothing: after it,
    each of the six batches holds exactly the instances that the nodes
    pushed to it, in the order of the nodes, and no other batch exists.
    The trunk batch and the foliage batch both have one entry for each
    node classified as a tree. *)
Theorem batches_hold_the_pushes (nodes : list Node) :
  exists m,
    ingestNodes nodes emptyInstances = Some m
    /\ (forall key,
          m !! key = if bool_decide (key ∈ batchKeys)
                     then Some (pushedTo key (flat_map synthesize nodes))
                     else None)
    /\ length (pushedTo "tree_trunk" (flat_map synthesize nodes))
       = length (List.filter isTreeNode nodes)
    /\ length (pushedTo "tree_foliage" (flat_map synthesize nodes))
       = length (List.filter isTreeNode nodes).
Proof.
  destruct (ingestNodes_total nodes emptyInstances emptyInstances_hasBatches)
    as (m & Hm & _).
  exists m. split; [exact Hm|]. split; [|apply pushedTo_trees].
  intros key. rewrite (ingestNodes_lookup nodes emptyInstances m key Hm).
  destruct (bool_decide (key ∈ batchKeys)) eqn:Hkey.
  - apply bool_decide_eq_true in Hkey. unfold batchKeys in Hkey.
    repeat (apply elem_of_cons in Hkey as [-> | Hkey]; [reflexivity|]).
    now apply elem_of_nil in Hkey.
  - apply bool_decide_eq_false in Hkey.
    assert (Hnone : emptyInstances !! key = None).
    { unfold emptyInstances. rewrite !lookup_insert_ne, lookup_empty; [reflexivity|..];
        intros <-; apply Hkey; unfold batchKeys; one_of_list. }
    now rewrite Hnone.
Qed.

End BatchContents.

Section InstanceLayerAndColour.
Import Synth.

Lemma categoryOf_cases (t : string) :
  isTree t = false ->
  (t = "shrubbery" /\ categoryOf t = "shrubbery")
  \/ (t = "utilitypole" /\ categoryOf t = "utilityPole")
  \/ (t = "bench" /\ categoryOf t = "bench")
  \/ (t ∈ ["hydrant"; "rock"; "illustration"; "adcolumn"; "ac_unit"]
      /\ categoryOf t = "default").
Proof.
  unfold isTree. intros Htree. apply orb_false_iff in Htree as [_ Hknown].
  apply negb_false_iff, arrayIncludes_spec in Hknown. unfold knownNonTreeTypes in Hknown.
  repeat (apply elem_of_cons in Hknown as [-> | Hknown];
          [ first [ left; split; reflexivity
                  | right; left; split; reflexivity
                  | right; right; left; split; reflexivity
                  | right; right; right; split; [one_of_list | reflexivity] ] |]).
  now apply elem_of_nil in Hknown.
Qed.

(** X2. All the instances of one node go to one layer: the vegetation
    layer when the node is classified as a tree or as shrubbery, the
    infrastructure layer for utility poles, benches and default blocks. *)
Theorem instances_layer (node : Node) (e : string * Instance) :
  e ∈ synthesize node ->
  layerOfCategory e.1
  = match classifyTag (normalize (rawTypeOf node)) with
    | tree => "vegetation"
    | nonTree category =>
        if String.eqb category "shrubbery" then "vegetation" else "infrastructure"
    end.
Proof.
  unfold synthesize, classifyTag.
  destruct (isTree (normalize (rawTypeOf node))) eqn:Htree.
  - intros He. repeat (apply elem_of_cons in He as [-> | He]; [reflexivity|]).
    now apply elem_of_nil in He.
  - intros He. apply list_elem_of_singleton in He as ->. cbn [fst].
    destruct (categoryOf_cases _ Htree) as [[_ ->] | [[_ ->] | [[_ ->] | [_ ->]]]];
      reflexivity.
Qed.

Lemma instances_layer_witness :
  layerOfCategory "bench" = "infrastructure".
Proof.
  apply (instances_layer (mkNode None (Some "Bench") None None None None)
           ("bench", mkInstance (mkVector3 0 0 0) (mkVector3 0.5 0.5 0.5) "#A0522D")).
  vm_compute. apply list_elem_of_here.
Defined.

Lemma COLORS_infrastructure_lookup (key : string) :
  COLORS_infrastructure !! key
  = if String.eqb key "tree" then Some "#228B22"
    else if String.eqb key "shrubbery" then Some "#8FBC8F"
    else if String.eqb key "bench" then Some "#A0522D"
    else if String.eqb key "utilityPole" then Some "#696969"
    else if String.eqb key "default" then Some "#AAAAAA"
    else None.
Proof.
  unfold COLORS_infrastructure.
  destruct (String.eqb_spec key "tree") as [-> | ?]; [reflexivity|].
  destruct (String.eqb_spec key "shrubbery") as [-> | ?]; [reflexivity|].
  destruct (String.eqb_spec key "bench") as [-> | ?]; [reflexivity|].
  destruct (String.eqb_spec key "utilityPole") as [-> | ?]; [reflexivity|].
  destruct (String.eqb_spec key "default") as [-> | ?]; [reflexivity|].
  rewrite !lookup_insert_ne by (intros E; subst; congruence). apply lookup_empty.
Qed.

(** A raw tag that is itself a key of the colour table and normalizes to
    "utilitypole" is "utilityPole"; none normalizes to one of the tags of
    the default block. *)
Lemma raw_key_normalized (raw colour : string) :
  COLORS_infrastructure !! raw = Some colour ->
  (normalize raw = "utilitypole" -> raw = "utilityPole")
  /\ normalize raw ∉ ["hydrant"; "rock"; "illustration"; "adcolumn"; "ac_unit"].
Proof.
  rewrite COLORS_infrastructure_lookup.
  assert (Hkey : forall key,
             normalize key <> "utilitypole" \/ key = "utilityPole" ->
             normalize key ∈ ["tree"; "shrubbery"; "bench"; "utilitypole"; "default"] ->
             (normalize key = "utilitypole" -> key = "utilityPole")
             /\ normalize key ∉ ["hydrant"; "rock"; "illustration"; "adcolumn"; "ac_unit"]).
  { intros key Hpole Hin. split; [intros H; destruct Hpole; [contradiction | assumption]|].
    intros Hout.
    repeat (apply elem_of_cons in Hin as [Hin | Hin];
            [ rewrite Hin in Hout;
              repeat (apply elem_of_cons in Hout as [Hout | Hout]; [discriminate Hout|]);
              now apply elem_of_nil in Hout |]).
    now apply elem_of_nil in Hin. }
  destruct (String.eqb_spec raw "tree") as [-> | ?];
    [intros _; apply Hkey; [left; discriminate | vm_compute; one_of_list]|].
  destruct (String.eqb_spec raw "shrubbery") as [-> | ?];
    [intros _; apply Hkey; [left; discriminate | vm_compute; one_of_list]|].
  destruct (String.eqb_spec raw "bench") as [-> | ?];
    [intros _; apply Hkey; [left; discriminate | vm_compute; one_of_list]|].
  destruct (String.eqb_spec raw "utilityPole") as [-> | ?];
    [intros _; apply Hkey; [right; reflexivity | vm_compute; one_of_list]|].
  destruct (String.eqb_spec raw "default") as [-> | ?];
    [intros _; apply Hkey; [left; discriminate | vm_compute; one_of_list]|].
  discriminate.
Qed.

(** X3. The colour of an instance that is not a tree is looked up under
    the normalized tag and then under the raw tag. Shrubbery and benches
    get their own colour. A utility pole gets the pole colour #696969
    only when its raw tag is spelled exactly "utilityPole": with any other
    spelling ("UtilityPole", "utilitypole", padded with blanks) it gets
    the default grey #AAAAAA, as do the default blocks. *)
Theorem non_tree_colour (node : Node) (category : string) :
  classifyTag (normalize (rawTypeOf node)) = nonTree category ->
  exists inst,
    synthesize node = [(category, inst)]
    /\ color inst
       = if String.eqb category "shrubbery" then "#8FBC8F"
         else if String.eqb category "bench" then "#A0522D"
         else if String.eqb category "utilityPole" then
           (if String.eqb (rawTypeOf node) "utilityPole" then "#696969" else "#AAAAAA")
         else "#AAAAAA".
Proof.
  intros Hclass. unfold synthesize. rewrite Hclass. eexists. split; [reflexivity|].
  cbn [color]. unfold classifyTag in Hclass.
  destruct (isTree (normalize (rawTypeOf node))) eqn:Htree; [discriminate|].
  injection Hclass as <-. unfold infraColor.
  destruct (categoryOf_cases _ Htree) as [[Ht ->] | [[Ht ->] | [[Ht ->] | [Ht ->]]]].
  - rewrite Ht. reflexivity.
  - rewrite Ht. cbn -[COLORS_infrastructure String.eqb].
    change (COLORS_infrastructure !! "utilitypole") with (@None string).
    destruct (COLORS_infrastructure !! rawTypeOf node) as [colour|] eqn:Hraw.
    + destruct (raw_key_normalized _ _ Hraw) as [Hpole _].
      rewrite (Hpole Ht) in *. vm_compute in Hraw. injection Hraw as <-. reflexivity.
    + destruct (String.eqb_spec (rawTypeOf node) "utilityPole") as [Heq | _];
        [|reflexivity].
      rewrite Heq in Hraw. vm_compute in Hraw. discriminate Hraw.
  - rewrite Ht. reflexivity.
  - assert (Hnone : COLORS_infrastructure !! normalize (rawTypeOf node) = None).
    { repeat (apply elem_of_cons in Ht as [-> | Ht]; [reflexivity|]).
      now apply elem_of_nil in Ht. }
    rewrite Hnone. cbn -[COLORS_infrastructure].
    destruct (COLORS_infrastructure !! rawTypeOf node) as [colour|] eqn:Hraw;
      [|reflexivity].
    destruct (raw_key_normalized _ _ Hraw) as [_ Hout]. contradiction.
Qed.

Lemma non_tree_colour_witness :
  exists inst,
    synthesize (mkNode None (Some "UtilityPole") None None None None)
    = [("utilityPole", inst)]
    /\ color inst = "#AAAAAA".
Proof.
  apply (non_tree_colour (mkNode None (Some "UtilityPole") None None None None)
           "utilityPole").
  reflexivity.
Defined.

End InstanceLayerAndColour.

(** ** The mesh branch of the geometry effect *)

Section MeshBranch.
Import Meshes MeshFacts.

Lemma targetLayerOf_cases (type : string) :
  targetLayerOf type = (if bool_decide (type ∈ meshTypes) then type else "infrastructure")
  /\ targetLayerOf type ∈ meshTypes.
Proof.
  unfold targetLayerOf, meshTypes.
  destruct (String.eqb_spec type "buildings") as [-> | ?]; [split; [reflexivity | one_of_list]|].
  destruct (String.eqb_spec type "surface") as [-> | ?]; [split; [reflexivity | one_of_list]|].
  destruct (String.eqb_spec type "infrastructure") as [-> | ?];
    [split; [reflexivity | one_of_list]|].
  destruct (String.eqb_spec type "barriers") as [-> | ?]; [split; [reflexivity | one_of_list]|].
  destruct (String.eqb_spec type "topography") as [-> | ?]; [split; [reflexivity | one_of_list]|].
  split; [|one_of_list].
  rewrite bool_decide_eq_false_2; [reflexivity|].
  intros Hin. repeat (apply elem_of_cons in Hin as [-> | Hin]; [congruence|]).
  now apply elem_of_nil in Hin.
Qed.

Lemma addedTo_app (key : string) (es es' : list (string * MeshObject)) :
  addedTo key (es ++ es') = addedTo key es ++ addedTo key es'.
Proof. unfold addedTo. now rewrite List.filter_app, map_app. Qed.

(** One mesh: the layers and the counter move together. *)
Lemma addMesh_spec (acc : gmap string (list MeshObject) * Stats) (type : string)
    (mesh : MeshData) (key : string) :
  let es := match ingestMesh type mesh with
            | Some obj => [(targetLayerOf type, obj)]
            | None => []
            end in
  (addMesh acc type mesh).1 !! key = (fun objs => objs ++ addedTo key es) <$> acc.1 !! key
  /\ meshCount (addMesh acc type mesh).2 = (meshCount acc.2 + length es)%nat.
Proof.
  cbv zeta. unfold addMesh. destruct (ingestMesh type mesh) as [obj|]; cbn [fst snd length].
  - split; [|cbn; lia]. unfold addedTo. cbn [List.filter fst].
    destruct (String.eqb_spec (targetLayerOf type) key) as [<- | Hne].
    + rewrite lookup_alter_eq. reflexivity.
    + rewrite lookup_alter_ne by exact Hne. destruct (acc.1 !! key); cbn; [|reflexivity].
      now rewrite app_nil_r.
  - split; [|lia]. destruct (acc.1 !! key); cbn; [|reflexivity].
    unfold addedTo. cbn. now rewrite app_nil_r.
Qed.

Lemma foldl_addMesh_spec (type : string) (ms : list MeshData)
    (acc : gmap string (list MeshObject) * Stats) (key : string) :
  let es := flat_map (fun mesh => match ingestMesh type mesh with
                                  | Some obj => [(targetLayerOf type, obj)]
                                  | None => []
                                  end) ms in
  (foldl (fun acc mesh => addMesh acc type mesh) acc ms).1 !! key
  = (fun objs => objs ++ addedTo key es) <$> acc.1 !! key
  /\ meshCount (foldl (fun acc mesh => addMesh acc type mesh) acc ms).2
     = (meshCount acc.2 + length es)%nat.
Proof.
  cbv zeta. revert acc. induction ms as [|mesh ms IH]; intros acc.
  - cbn. split; [|lia]. destruct (acc.1 !! key); cbn; [|reflexivity].
    unfold addedTo. cbn. now rewrite app_nil_r.
  - cbn [foldl flat_map]. destruct (IH (addMesh acc type mesh)) as [IHl IHc].
    destruct (addMesh_spec acc type mesh key) as [Hl Hc]. cbv zeta in Hl, Hc.
    rewrite IHl, IHc, Hl, Hc, addedTo_app, length_app. split; [|lia].
    destruct (acc.1 !! key); cbn; [|reflexivity]. now rewrite app_assoc.
Qed.

Lemma ingestMeshes_spec (geometry : list GeometryData)
    (acc : gmap string (list MeshObject) * Stats) (key : string) :
  let result :=
    foldl (fun acc g => foldl (fun acc mesh => addMesh acc (layerType g) mesh) acc (meshesOf g))
          acc geometry in
  result.1 !! key = (fun objs => objs ++ addedTo key (ingested geometry)) <$> acc.1 !! key
  /\ meshCount result.2 = (meshCount acc.2 + length (ingested geometry))%nat.
Proof.
  cbv zeta. revert acc. induction geometry as [|g geometry IH]; intros acc.
  - cbn. split; [|lia]. destruct (acc.1 !! key); cbn; [|reflexivity].
    unfold addedTo. cbn. now rewrite app_nil_r.
  - cbn [foldl]. unfold ingested in *. cbn [flat_map].
    destruct (IH (foldl (fun acc mesh => addMesh acc (layerType g) mesh) acc (meshesOf g)))
      as [IHl IHc].
    destruct (foldl_addMesh_spec (layerType g) (meshesOf g) acc key) as [Hl Hc].
    cbv zeta in Hl, Hc.
    rewrite IHl, IHc, Hl, Hc, addedTo_app, length_app. split; [|lia].
    destruct (acc.1 !! key); cbn; [|reflexivity]. now rewrite app_assoc.
Qed.

(** X4. The mesh branch keeps every mesh with a vertex list that is
    present and not empty, and nothing else: each of the six layers ends
    with exactly the mesh objects routed to it, in payload order; the mesh
    counter is their number. A mesh goes to the layer named by the type of
    its element when that is one of buildings, surface, infrastructure,
    barriers and topography, and to the infrastructure layer for any other
    type; no mesh goes to the vegetation layer. *)
Theorem mesh_branch_layers (geometry : list GeometryData) :
  let result := ingestMeshes geometry in
  (forall key,
     result.1 !! key = if bool_decide (key ∈ layerKeys)
                       then Some (addedTo key (ingested geometry))
                       else None)
  /\ meshCount result.2 = length (ingested geometry)
  /\ ingested geometry
     = flat_map (fun g =>
         flat_map (fun mesh =>
           match vertices mesh with
           | None | Some [] => []
           | Some vs =>
               [(if bool_decide (layerType g ∈ meshTypes) then layerType g
                 else "infrastructure",
                 mkMeshObject (layerType g) (surfaceTypeOf mesh)
                              (colorOf (layerType g) mesh) vs
                              (String.eqb (layerType g) "buildings"))]
           end) (meshesOf g)) geometry
  /\ addedTo "vegetation" (ingested geometry) = [].
Proof.
  cbv zeta. unfold ingestMeshes.
  split; [|split; [|split]].
  - intros key.
    destruct (ingestMeshes_spec geometry (emptyLayers, mkStats 0 0) key) as [Hl _].
    cbv zeta in Hl. rewrite Hl. cbn [fst].
    destruct (bool_decide (key ∈ layerKeys)) eqn:Hkey.
    + apply bool_decide_eq_true in Hkey. unfold layerKeys in Hkey.
      repeat (apply elem_of_cons in Hkey as [-> | Hkey]; [reflexivity|]).
      now apply elem_of_nil in Hkey.
    + apply bool_decide_eq_false in Hkey.
      assert (Hnone : emptyLayers !! key = None).
      { apply not_elem_of_list_to_map_1. exact Hkey. }
      now rewrite Hnone.
  - destruct (ingestMeshes_spec geometry (emptyLayers, mkStats 0 0) "") as [_ Hc].
    exact Hc.
  - unfold ingested. induction geometry as [|g geometry IH]; [reflexivity|].
    cbn [flat_map]. rewrite IH. f_equal.
    induction (meshesOf g) as [|mesh ms IHm]; [reflexivity|].
    cbn [flat_map]. rewrite IHm. f_equal.
    unfold ingestMesh. destruct (vertices mesh) as [[|v vs]|]; try reflexivity.
    now rewrite (proj1 (targetLayerOf_cases (layerType g))).
  - unfold ingested, addedTo.
    induction geometry as [|g geometry IH]; [reflexivity|].
    cbn [flat_map]. rewrite List.filter_app, map_app, IH, app_nil_r.
    induction (meshesOf g) as [|mesh ms IHm]; [reflexivity|].
    cbn [flat_map]. rewrite List.filter_app, map_app, IHm, app_nil_r.
    destruct (ingestMesh (layerType g) mesh) as [obj|]; [|reflexivity].
    cbn [List.filter fst].
    destruct (String.eqb_spec (targetLayerOf (layerType g)) "vegetation") as [Heq | _];
      [|reflexivity].
    pose proof (proj2 (targetLayerOf_cases (layerType g))) as Hin.
    rewrite Heq in Hin. unfold meshTypes in Hin.
    repeat (apply elem_of_cons in Hin as [Hin | Hin]; [discriminate Hin|]).
    now apply elem_of_nil in Hin.
Qed.

End MeshBranch.

Section UnknownSurfaceSubtype.
Import Layers Meshes MeshFacts.





End UnknownSurfaceSubtype.

(** ** Surface subtype buttons *)

Section SublayerToggle.
Import Layers.

(** X6. Pressing the button of a surface subtype that has a flag twice
    gives back the visibility state, and one press changes nothing but
    that flag: the other layers keep their flags, and a surface child of
    another subtype keeps its own visibility. *)
Theorem sublayer_toggle_local (subKey : string) (lv : LayerVisibility) :
  is_Some (surfaceGet (surface lv) subKey) ->
  toggleSublayer subKey (toggleSublayer subKey lv) = lv
  /\ surfaceGet (surface (toggleSublayer subKey lv)) subKey
     = negb <$> surfaceGet (surface lv) subKey
  /\ (forall key, key <> subKey ->
        surfaceGet (surface (toggleSublayer subKey lv)) key = surfaceGet (surface lv) key)
  /\ (forall child, JS.strOr (subtype child) "default" <> subKey ->
        isSubVisible (surface (toggleSublayer subKey lv)) child
        = isSubVisible (surface lv) child)
  /\ (forall id, id <> id_surface ->
        layerIsVisible id (toggleSublayer subKey lv) = layerIsVisible id lv).
Proof.
  intros [b Hb].
  assert (Hother : forall key, key <> subKey ->
             surfaceGet (surface (toggleSublayer subKey lv)) key
             = surfaceGet (surface lv) key).
  { intros key Hne. unfold toggleSublayer, surfaceGet. cbn [surface].
    destruct (String.eqb_spec subKey "_group") as [-> | Hsub]; cbn [_group sublayers].
    - destruct (String.eqb_spec key "_group") as [-> | _]; [contradiction | reflexivity].
    - destruct (String.eqb_spec key "_group") as [_ | _]; [reflexivity|].
      now rewrite lookup_insert_ne by congruence. }
  destruct lv as [bu [g subs] ve inf ba to]. unfold surfaceGet in Hb. cbn in Hb.
  split; [|split; [|split; [exact Hother | split]]].
  - unfold toggleSublayer, surfaceGet. cbn. revert Hb.
    destruct (String.eqb_spec subKey "_group") as [-> | Hsub]; cbn; intros Hb.
    + now rewrite negb_involutive.
    + rewrite lookup_insert_eq, Hb. cbn. rewrite negb_involutive, insert_insert_eq.
      now rewrite insert_id.
  - unfold toggleSublayer, surfaceGet. cbn. revert Hb.
    destruct (String.eqb_spec subKey "_group") as [-> | Hsub]; cbn; intros Hb.
    + now injection Hb as ->.
    + now rewrite lookup_insert_eq, Hb.
  - intros child Hne. unfold isSubVisible. now rewrite Hother.
  - intros id Hid. destruct id; try reflexivity. contradiction.
Qed.

Lemma sublayer_toggle_local_witness :
  toggleSublayer "footway" (toggleSublayer "footway" initialVisibility) = initialVisibility.
Proof.
  apply (sublayer_toggle_local "footway" initialVisibility).
  vm_compute. eauto.
Defined.

End SublayerToggle.

(** ** Time of day: the hourly sample and the sun date *)

Section TimeOfDay.
Import Overlays.
Local Open Scope Q_scope.






End TimeOfDay.

Section SunDate.
Import Overlays.
Local Open Scope Q_scope.




End SunDate.


(** ** Sun study *)

Section SunStudy.
Import Scene3D Overlays.
Local Open Scope Q_scope.

Variable getPosition : Date -> Q -> Q -> SunPosition.

Lemma Qlt_bool_iff (a b : Q) : Qlt_bool a b = true <-> a < b.
Proof.
  unfold Qlt_bool. rewrite negb_true_iff, <- not_true_iff_false, Qle_bool_iff.
  split; [apply Qnot_le_lt | apply Qlt_not_le].
Qed.

Lemma skyColors_cases (alt : Q) :
  (alt < - 0.1 -> skyColors alt = ("#0f172a", "#1e293b"))
  /\ (- 0.1 <= alt -> alt < 0.1 -> skyColors alt = ("#4f46e5", "#fcd34d"))
  /\ (0.1 <= alt -> skyColors alt = ("#3b82f6", "#e0f2fe")).
Proof.
  unfold skyColors. repeat split.
  - intros Hlt. now rewrite (proj2 (Qlt_bool_iff _ _) Hlt).
  - intros Hge Hlt.
    assert (Hnight : Qlt_bool alt (- 0.1) = false).
    { apply not_true_iff_false. rewrite Qlt_bool_iff. now apply Qle_not_lt. }
    rewrite Hnight, (proj2 (Qlt_bool_iff _ _) Hlt), (proj2 (Qle_bool_iff _ _) Hge).
    reflexivity.
  - intros Hge.
    assert (Hnight : Qlt_bool alt (- 0.1) = false).
    { apply not_true_iff_false. rewrite Qlt_bool_iff. apply Qle_not_lt.
      apply Qle_trans with 0.1; [discriminate | exact Hge]. }
    assert (Hdusk : Qlt_bool alt 0.1 = false).
    { apply not_true_iff_false. rewrite Qlt_bool_iff. now apply Qle_not_lt. }
    now rewrite Hnight, Hdusk.
Qed.

(** X9. With a sun light and a mesh group in place, the sun-study effect
    only changes the light and the sky. While the study is on, the light
    casts shadows whatever the default-shadows switch says, with or
    without an origin; once it is off, shadows follow the switch and the
    sky is the default gradient again, whatever it was. With an origin the
    sky of the study is night below -0.1 rad, dusk from -0.1 rad up to but
    not including 0.1 rad, and day from 0.1 rad on. The helpers, the mesh
    group and the number of overlay nodes are never touched. *)
Theorem sun_study_lighting (timeOfDay : Q) (geometryData : option ApiResponse)
    (isSunStudyEnabled showDefaultShadows : bool) (now : Date) (r : Refs)
    (light : SunLight) (meshGroup : MeshGroup) :
  sunLightRef r = Some light -> meshGroupRef r = Some meshGroup ->
  let r' := sunStudyEffect getPosition timeOfDay geometryData isSunStudyEnabled
                           showDefaultShadows now r in
  castShadow <$> sunLightRef r'
    = Some (if isSunStudyEnabled then true else showDefaultShadows)
  /\ (isSunStudyEnabled = false ->
      background <$> sceneRef r' = (fun _ => defaultBackground) <$> sceneRef r)
  /\ (forall lat lon, isSunStudyEnabled = true -> originOf geometryData = Some (lat, lon) ->
      let alt := altitude (getPosition (atHour timeOfDay now) lat lon) in
      background <$> sceneRef r' = (fun _ => skyColors alt) <$> sceneRef r
      /\ (alt < - 0.1 -> skyColors alt = ("#0f172a", "#1e293b"))
      /\ (- 0.1 <= alt -> alt < 0.1 -> skyColors alt = ("#4f46e5", "#fcd34d"))
      /\ (0.1 <= alt -> skyColors alt = ("#3b82f6", "#e0f2fe")))
  /\ meshGroupRef r' = meshGroupRef r
  /\ solarHelperRef r' = solarHelperRef r
  /\ windHelperRef r' = windHelperRef r
  /\ mapGroupRef r' = mapGroupRef r
  /\ overlayNodes r' = overlayNodes r.
Proof.
  intros Hlight Hmesh. cbv zeta. unfold sunStudyEffect. rewrite Hlight, Hmesh.
  destruct isSunStudyEnabled; cbn [negb].
  - destruct (originOf geometryData) as [[lat lon]|] eqn:Horigin.
    + split; [reflexivity|]. split; [discriminate|]. split.
      { intros lat' lon' _ [= <- <-]. split; [now destruct (sceneRef r)|].
        apply skyColors_cases. }
      repeat split; try reflexivity. unfold overlayNodes. cbn.
      now destruct (sceneRef r).
    + split; [reflexivity|]. split; [discriminate|]. split; [discriminate|].
      repeat split; reflexivity.
  - split; [reflexivity|]. split; [intros _; now destruct (sceneRef r)|].
    split; [discriminate|]. repeat split; try reflexivity.
    unfold overlayNodes. cbn. now destruct (sceneRef r).
Qed.

End SunStudy.

Lemma sun_study_lighting_witness :
  Scene3D.castShadow <$> Scene3D.sunLightRef
    (Overlays.sunStudyEffect Overlays.cutoffAtFour 12 (Some Climate.payloadA) true false
       Overlays.morning (Scene3D.afterGeometryEffect Scene3D.emptyMeshGroup Scene3D.noRefs))
  = Some true.
Proof.
  apply (sun_study_lighting Overlays.cutoffAtFour 12 (Some Climate.payloadA) true false
           Overlays.morning (Scene3D.afterGeometryEffect Scene3D.emptyMeshGroup Scene3D.noRefs)
           (Scene3D.mkSunLight true 300) Scene3D.emptyMeshGroup); reflexivity.
Defined.

(** ** Running an overlay effect again *)

Section OverlayReruns.
Import Scene3D Overlays Slots.

(** X10. Running the wind effect again with the same inputs changes
    nothing more: helpers do not pile up. When its guard passes, the wind
    helper in the scene counts 37 nodes while the overlay is on and none
    once it is off. The effect leaves the sun light, the mesh group, the
    other two helpers and the sky alone. *)
Theorem wind_effect_rerun (isClimateEnabled : bool) (climateData : option ClimateData)
    (timeOfDay : Q) (r : Refs) :
  let r' := windEffect isClimateEnabled climateData timeOfDay r in
  windEffect isClimateEnabled climateData timeOfDay r' = r'
  /\ (is_Some (sceneRef r) -> is_Some climateData -> is_Some (meshGroupRef r) ->
      windNodes r' = if isClimateEnabled then 37%nat else 0%nat)
  /\ sunLightRef r' = sunLightRef r
  /\ meshGroupRef r' = meshGroupRef r
  /\ solarHelperRef r' = solarHelperRef r
  /\ mapGroupRef r' = mapGroupRef r
  /\ solarNodes r' = solarNodes r
  /\ mapNodes r' = mapNodes r
  /\ background <$> sceneRef r' = background <$> sceneRef r.
Proof.
  cbv zeta. unfold windEffect, windNodes, solarNodes, mapNodes.
  destruct r as [[[sa wa ma bg]|] [mg|] light solar wind mapg];
    destruct climateData as [climate|]; cbn;
    try (repeat split; try reflexivity; intros [? H] [? H'] [? H'']; discriminate).
  destruct isClimateEnabled, wind; repeat split; reflexivity.
Qed.

Lemma wind_effect_rerun_witness :
  windNodes (windEffect true (Some Climate.breeze) 12
               (afterGeometryEffect emptyMeshGroup noRefs)) = 37%nat.
Proof.
  apply (proj1 (proj2 (wind_effect_rerun true (Some Climate.breeze) 12
                         (afterGeometryEffect emptyMeshGroup noRefs)))); eauto.
Defined.

Section WithSunCalc.
Variable getPosition : Date -> Q -> Q -> SunPosition.

(** X11. Running the solar-path effect again with the same inputs changes
    nothing more. When the scene and the mesh group are there, the solar
    helper in the scene counts 13 or 14 nodes while the path is shown for
    a payload with an origin, and none when the path is off or the origin
    is missing: the helper of an earlier run is always removed first. The
    effect leaves the sun light, the mesh group, the other two helpers and
    the sky alone. *)
Theorem solar_path_rerun (showSolarPath : bool) (timeOfDay : Q)
    (geometryData : option ApiResponse) (now : Date) (r : Refs) :
  let r' := solarPathEffect getPosition showSolarPath timeOfDay geometryData now r in
  solarPathEffect getPosition showSolarPath timeOfDay geometryData now r' = r'
  /\ (is_Some (sceneRef r) -> is_Some (meshGroupRef r) ->
      if showSolarPath && bool_decide (is_Some (originOf geometryData))
      then (13 <= solarNodes r' <= 14)%nat
      else solarNodes r' = 0%nat /\ solarHelperRef r' = None)
  /\ sunLightRef r' = sunLightRef r
  /\ meshGroupRef r' = meshGroupRef r
  /\ windHelperRef r' = windHelperRef r
  /\ mapGroupRef r' = mapGroupRef r
  /\ windNodes r' = windNodes r
  /\ mapNodes r' = mapNodes r
  /\ background <$> sceneRef r' = background <$> sceneRef r.
Proof.
  cbv zeta. unfold solarPathEffect, windNodes, solarNodes, mapNodes.
  destruct r as [[[sa wa ma bg]|] [mg|] light solar wind mapg]; cbn;
    try (repeat split; try reflexivity; intros [? H] [? H']; discriminate).
  destruct showSolarPath, (originOf geometryData) as [[lat lon]|], solar; cbn;
    repeat split; try reflexivity;
    unfold solarHelper; destruct (pathLine getPosition now lat lon); cbn; lia.
Qed.

End WithSunCalc.

End OverlayReruns.

Lemma solar_path_rerun_witness :
  (13 <= Slots.solarNodes
           (Overlays.solarPathEffect Overlays.cutoffAtFour true 12 (Some Climate.payloadA)
              Overlays.morning
              (Scene3D.afterGeometryEffect Scene3D.emptyMeshGroup Scene3D.noRefs)) <= 14)%nat.
Proof.
  apply (proj1 (proj2 (solar_path_rerun Overlays.cutoffAtFour true 12
                         (Some Climate.payloadA) Overlays.morning
                         (Scene3D.afterGeometryEffect Scene3D.emptyMeshGroup Scene3D.noRefs))));
    cbn; eauto.
Defined.

(** ** Which tiles are loaded *)

Section TileOrder.
Import Tiles TileFacts.

Variables (z : Z) (cx cy mpp : Q).

Lemma innerLoop_cells (n : nat) (a b : Z) (st : LoopState) :
  loopInvariant z st ->
  map cellOf (scheduled (innerLoop z cx cy mpp n a b st))
  = map cellOf (scheduled st)
    ++ take (300 - length (scheduled st)) (map (fun ty => (a, ty)) (zrange b n)).
Proof.
  revert b st. induction n as [|n IH]; intros b st Hinv.
  - cbn. now rewrite take_nil, app_nil_r.
  - cbn [innerLoop zrange map]. destruct Hinv as (Hlen & Hcap & Hzoom).
    destruct (300 <=? loadedCount st)%Z eqn:Hfull.
    + apply Z.leb_le in Hfull.
      replace (300 - length (scheduled st))%nat with 0%nat by lia.
      now rewrite take_0, app_nil_r.
    + apply Z.leb_gt in Hfull.
      destruct (schedule_invariant z cx cy mpp a b st (conj Hlen (conj Hcap Hzoom)) Hfull)
        as [Hinv' _].
      rewrite (IH (b + 1)%Z _ Hinv'). unfold schedule. cbn [scheduled].
      rewrite map_app, length_app. cbn [map length cellOf tx ty].
      rewrite <- app_assoc. f_equal.
      replace (300 - length (scheduled st))%nat
        with (S (300 - (length (scheduled st) + 1)))%nat by lia.
      reflexivity.
Qed.

Lemma outerLoop_cells (m : nat) (a lo hi : Z) (st : LoopState) :
  loopInvariant z st ->
  map cellOf (scheduled (outerLoop z cx cy mpp m a lo hi st))
  = map cellOf (scheduled st)
    ++ take (300 - length (scheduled st))
            (flat_map (fun tx => map (fun ty => (tx, ty))
                                     (zrange lo (Z.to_nat (hi - lo + 1))))
                      (zrange a m)).
Proof.
  revert a st. induction m as [|m IH]; intros a st Hinv.
  - cbn. now rewrite take_nil, app_nil_r.
  - cbn [outerLoop zrange flat_map].
    destruct (innerLoop_spec z cx cy mpp (Z.to_nat (hi - lo + 1)) a lo st Hinv)
      as [Hinv' _].
    rewrite (IH (a + 1)%Z _ Hinv'), (innerLoop_cells _ a lo st Hinv).
    rewrite <- app_assoc. f_equal. rewrite take_app. f_equal.
    assert (Hlen : length (scheduled (innerLoop z cx cy mpp (Z.to_nat (hi - lo + 1)) a lo st))
                   = (length (scheduled st)
                      + length (take (300 - length (scheduled st))
                                  (map (fun ty => (a, ty))
                                       (zrange lo (Z.to_nat (hi - lo + 1))))))%nat).
    { rewrite <- (length_map cellOf), (innerLoop_cells _ a lo st Hinv), length_app,
        length_map. reflexivity. }
    rewrite Hlen, length_take.
    set (row := map (fun ty => (a, ty)) (zrange lo (Z.to_nat (hi - lo + 1)))).
    destruct (Nat.le_gt_cases (length row) (300 - length (scheduled st))) as [Hle | Hgt].
    + f_equal. lia.
    + f_equal. lia.
Qed.

(** Every tile stands where the loop body computes it. *)
Lemma loops_place (n m : nat) (a b lo hi : Z) (st : LoopState) :
  Forall (placed cx cy mpp) (scheduled st) ->
  Forall (placed cx cy mpp) (scheduled (innerLoop z cx cy mpp n a b st))
  /\ Forall (placed cx cy mpp) (scheduled (outerLoop z cx cy mpp m a lo hi st)).
Proof.
  intros Hst. split.
  - revert b st Hst. induction n as [|n IH]; intros b st Hst; [exact Hst|].
    cbn [innerLoop]. destruct (300 <=? loadedCount st)%Z; [exact Hst|].
    apply IH. unfold schedule. cbn [scheduled]. apply Forall_app. split; [exact Hst|].
    apply Forall_cons; split; [split; reflexivity | apply Forall_nil_2].
  - revert a st Hst. induction m as [|m IH]; intros a st Hst; [exact Hst|].
    cbn [outerLoop]. apply IH. clear IH.
    generalize (Z.to_nat (hi - lo + 1)) as k. intros k. revert st Hst.
    generalize lo as c. induction k as [|k IHk]; intros c st Hst; [exact Hst|].
    cbn [innerLoop]. destruct (300 <=? loadedCount st)%Z; [exact Hst|].
    apply IHk. unfold schedule. cbn [scheduled]. apply Forall_app. split; [exact Hst|].
    apply Forall_cons; split; [split; reflexivity | apply Forall_nil_2].
Qed.

(** X12. One run loads the cells of the padded grid in the order of its
    two loops, column by column from west to east, and stops after 300:
    the tiles loaded are exactly the first 300 cells of that order, so a
    grid above the cap loses its eastern columns. Every loaded tile is
    placed at the centre of its cell: 256 pixels per tile, measured from
    the pixel of the origin, times the metres of one pixel. *)
Theorem tiles_are_grid_prefix (minTx maxTx minTy maxTy : Z) :
  let tiles := scheduled (loadTiles z cx cy mpp minTx maxTx minTy maxTy) in
  map cellOf tiles = take 300 (gridCells minTx maxTx minTy maxTy)
  /\ Forall (placed cx cy mpp) tiles.
Proof.
  cbv zeta. unfold loadTiles. split.
  - assert (Hinit : loopInvariant z (mkLoopState 0 [])).
    { unfold loopInvariant. cbn. repeat split; try lia. constructor. }
    rewrite (outerLoop_cells _ _ _ _ _ Hinit). reflexivity.
  - apply (loops_place 0 _ _ 0 _ _ (mkLoopState 0 [])). constructor.
Qed.

End TileOrder.

(** ** The grid covers the site *)

Section TileCoverage.
Import JS Scene3D Tiles TileFacts.
Local Open Scope Q_scope.

Lemma zrange_elem (x lo : Z) (n : nat) :
  x ∈ zrange lo n <-> (lo <= x < lo + Z.of_nat n)%Z.
Proof.
  revert lo. induction n as [|n IH]; intros lo; cbn [zrange].
  - split; [intros H; inversion H | lia].
  - rewrite elem_of_cons, IH. lia.
Qed.

Lemma gridCells_elem (a b c d x y : Z) :
  (x, y) ∈ gridCells a b c d
  <-> (a - pad <= x <= b + pad)%Z /\ (c - pad <= y <= d + pad)%Z.
Proof.
  unfold gridCells. rewrite list_elem_of_In, in_flat_map. split.
  - intros (x' & Hx & Hy). apply list_elem_of_In, zrange_elem in Hx.
    apply list_elem_of_In, list_elem_of_fmap in Hy. destruct Hy as (y' & E & Hy).
    inversion E; subst x' y'. apply zrange_elem in Hy. lia.
  - intros [Hx Hy]. exists x. split.
    + apply list_elem_of_In, zrange_elem. lia.
    + apply list_elem_of_In, list_elem_of_fmap. exists y. split; [reflexivity|].
      apply zrange_elem. lia.
Qed.

Lemma zrange_length (lo : Z) (n : nat) : length (zrange lo n) = n.
Proof. revert lo. induction n as [|n IH]; intros lo; cbn; [reflexivity | now rewrite IH]. Qed.

Lemma gridCells_length (a b c d : Z) :
  length (gridCells a b c d)
  = (Z.to_nat ((b + pad) - (a - pad) + 1) * Z.to_nat ((d + pad) - (c - pad) + 1))%nat.
Proof.
  unfold gridCells.
  generalize (zrange_length (c - pad) (Z.to_nat ((d + pad) - (c - pad) + 1))).
  generalize (zrange (c - pad) (Z.to_nat ((d + pad) - (c - pad) + 1))) at 1 2.
  intros row <-.
  rewrite <- (zrange_length (a - pad) (Z.to_nat ((b + pad) - (a - pad) + 1))) at 2.
  induction (zrange (a - pad) (Z.to_nat ((b + pad) - (a - pad) + 1))) as [|x xs IH];
    cbn [flat_map length]; [reflexivity|].
  rewrite length_app, length_map, IH. lia.
Qed.

Lemma tile_index_mono (c mpp w1 w2 : Q) :
  0 < mpp -> w1 <= w2 ->
  (Math_floor ((c + w1 / mpp) / 256) <= Math_floor ((c + w2 / mpp) / 256))%Z.
Proof.
  intros Hm Hw. unfold Math_floor. apply Qfloor_resp_le. unfold Qdiv.
  apply Qmult_le_compat_r; [|discriminate].
  apply Qplus_le_r. apply Qmult_le_compat_r; [exact Hw|].
  apply Qinv_le_0_compat, Qlt_le_weak, Hm.
Qed.

(** A point lies within half a tile of the centre of the cell its index
    names. *)
Lemma floor_cell (c mpp w : Q) :
  0 < mpp ->
  let k := Math_floor ((c + w / mpp) / 256) in
  (inject_Z (k * 256 + 128) - c) * mpp - 128 * mpp <= w
  /\ w <= (inject_Z (k * 256 + 128) - c) * mpp + 128 * mpp.
Proof.
  intros Hm k. set (u := (c + w / mpp) / 256) in *.
  assert (Hw : w == (u * 256 - c) * mpp).
  { unfold u. field. intros E. rewrite E in Hm. exact (Qlt_irrefl _ Hm). }
  assert (Hlo : inject_Z k <= u) by apply Qfloor_le.
  assert (Hhi : u <= inject_Z k + 1).
  { apply Qlt_le_weak. change 1 with (inject_Z 1). rewrite <- inject_Z_plus.
    apply Qlt_floor. }
  clearbody k. clearbody u.
  rewrite inject_Z_plus, inject_Z_mult.
  change (inject_Z 256) with 256. change (inject_Z 128) with 128.
  assert (Hpos : 0 <= mpp) by apply Qlt_le_weak, Hm.
  split.
  - apply Qle_trans with ((inject_Z k * 256 - c) * mpp);
      [apply Qle_lteq; right; ring|].
    apply Qle_trans with ((u * 256 - c) * mpp);
      [|apply Qle_lteq; right; symmetry; exact Hw].
    apply Qmult_le_compat_r; [|exact Hpos]. apply Qplus_le_l.
    apply Qmult_le_compat_r; [exact Hlo | discriminate].
  - apply Qle_trans with (((inject_Z k + 1) * 256 - c) * mpp);
      [|apply Qle_lteq; right; ring].
    apply Qle_trans with ((u * 256 - c) * mpp);
      [apply Qle_lteq; right; exact Hw|].
    apply Qmult_le_compat_r; [|exact Hpos]. apply Qplus_le_l.
    apply Qmult_le_compat_r; [exact Hhi | discriminate].
Qed.

Lemma tilesOf_cells (g : Grid) :
  map cellOf (tilesOf g) = take 300 (gridCells (minTx g) (maxTx g) (minTy g) (maxTy g))
  /\ Forall (placed (centerPixelX g) (centerPixelY g) (metersPerPixel g)) (tilesOf g).
Proof.
  unfold tilesOf, loadTiles. split.
  - rewrite outerLoop_cells; [reflexivity|].
    unfold loopInvariant. cbn. repeat split; try lia. constructor.
  - apply (loops_place (zoom g) (centerPixelX g) (centerPixelY g) (metersPerPixel g)
             0 _ _ 0 _ _ (mkLoopState 0 [])). constructor.
Qed.

Variables Math_cos Math_tan Math_log Math_log2 : Q -> Q.
Variable Math_PI : Q.

Let grid := gridOf Math_cos Math_tan Math_log Math_log2 Math_PI.

Lemma grid_ordered (lat lon : Q) (mn mx : Vector3) :
  0 < metersPerPixel (grid lat lon mn mx) ->
  vx mn <= vx mx -> vz mn <= vz mx ->
  (minTx (grid lat lon mn mx) <= maxTx (grid lat lon mn mx))%Z
  /\ (minTy (grid lat lon mn mx) <= maxTy (grid lat lon mn mx))%Z.
Proof.
  intros Hm Hx Hz. unfold grid, gridOf in *. cbn [metersPerPixel minTx maxTx minTy maxTy] in *.
  unfold getTileIndexX, getTileIndexY. split; apply tile_index_mono; assumption.
Qed.

(** X13. For a site with a box that is not empty, at a latitude where a
    pixel has a positive length in metres, the tile indices of the box
    are ordered, the padded grid has at least 49 cells (seven by seven:
    three cells of padding on each side of at least one), and the
    underlay loads at least 49 tiles and exactly the smaller of the grid
    size and 300. *)
Theorem underlay_never_below_49 (lat lon : Q) (mn mx : Vector3) :
  let g := grid lat lon mn mx in
  0 < metersPerPixel g ->
  isEmpty (Box mn mx) = false ->
  (minTx g <= maxTx g)%Z /\ (minTy g <= maxTy g)%Z
  /\ (49 <= tileCount g)%Z
  /\ Z.of_nat (length (tilesOf g)) = Z.min 300 (tileCount g)
  /\ (49 <= length (tilesOf g))%nat.
Proof.
  intros g Hm Hbox. cbn [isEmpty] in Hbox.
  apply orb_false_elim in Hbox as [Hbox Hz]. apply orb_false_elim in Hbox as [Hx _].
  apply negb_false_iff, Qle_bool_iff in Hx, Hz.
  destruct (grid_ordered lat lon mn mx Hm Hx Hz) as [Htx Hty]. fold g in Htx, Hty.
  destruct (tilesOf_spec g) as (_ & _ & Hlen). specialize (Hlen Htx Hty).
  assert (Hcount : (49 <= tileCount g)%Z).
  { unfold tileCount, tileCountOf, pad. nia. }
  repeat split; try assumption. lia.
Qed.

(** X14. When the grid stays within the cap, the tiles of the underlay
    cover the footprint of the site: every ground point inside the box of
    the geometry lies on the quad of a loaded tile, that is within half a
    tile (128 pixels) of its centre along both axes. *)
Theorem underlay_covers_site (lat lon : Q) (mn mx : Vector3) (wx wz : Q) :
  let g := grid lat lon mn mx in
  0 < metersPerPixel g ->
  (tileCount g <= 300)%Z ->
  vx mn <= wx /\ wx <= vx mx ->
  vz mn <= wz /\ wz <= vz mx ->
  exists t, t ∈ tilesOf g /\ covers (metersPerPixel g) t wx wz.
Proof.
  intros g Hm Hcap [Hx1 Hx2] [Hz1 Hz2].
  assert (Hx : vx mn <= vx mx) by (eapply Qle_trans; eassumption).
  assert (Hz : vz mn <= vz mx) by (eapply Qle_trans; eassumption).
  destruct (grid_ordered lat lon mn mx Hm Hx Hz) as [Htx Hty]. fold g in Htx, Hty.
  destruct (tilesOf_spec g) as (_ & _ & Hlen). specialize (Hlen Htx Hty).
  destruct (tilesOf_cells g) as [Hcells Hplaced].
  set (kx := getTileIndexX (centerPixelX g) (metersPerPixel g) wx).
  set (ky := getTileIndexY (centerPixelY g) (metersPerPixel g) wz).
  assert (Hin : (kx, ky) ∈ map cellOf (tilesOf g)).
  { rewrite Hcells, take_ge.
    - apply gridCells_elem. unfold kx, ky, g, grid, gridOf, getTileIndexX, getTileIndexY.
      cbn [minTx maxTx minTy maxTy centerPixelX centerPixelY metersPerPixel].
      unfold g, grid, gridOf in Hm. cbn [metersPerPixel] in Hm.
      pose proof (fun c w1 w2 => tile_index_mono c _ w1 w2 Hm) as Hmono.
      pose proof (Hmono (centerPixelX g) _ _ Hx1). pose proof (Hmono (centerPixelX g) _ _ Hx2).
      pose proof (Hmono (centerPixelY g) _ _ Hz1). pose proof (Hmono (centerPixelY g) _ _ Hz2).
      unfold g, grid, gridOf in *. cbn [centerPixelX centerPixelY] in *.
      unfold pad. lia.
    - rewrite gridCells_length. unfold tileCount, tileCountOf, pad in *. nia. }
  apply list_elem_of_fmap in Hin as (t & Hcell & Ht).
  exists t. split; [exact Ht|].
  rewrite Forall_forall in Hplaced. destruct (Hplaced t Ht) as [HX HZ].
  unfold cellOf in Hcell. inversion Hcell as [[Ekx Eky]].
  unfold covers. rewrite HX, HZ, <- Ekx, <- Eky.
  destruct (floor_cell (centerPixelX g) (metersPerPixel g) wx Hm) as [A B].
  destruct (floor_cell (centerPixelY g) (metersPerPixel g) wz Hm) as [C D].
  repeat split; assumption.
Qed.

End TileCoverage.

(** ** Running the map-underlay effect again *)

Section UnderlayRerun.
Import Scene3D Tiles Slots.

Variables Math_cos Math_tan Math_log Math_log2 : Q -> Q.
Variable Math_PI : Q.

Let effect := mapUnderlayEffect Math_cos Math_tan Math_log Math_log2 Math_PI.

Lemma nodeCount_tile_group (tiles : list Tile) :
  nodeCount (Object KGroup true (map (fun _ => leaf KMesh) tiles)) = S (length tiles).
Proof.
  cbn [nodeCount]. f_equal. induction tiles as [|t tiles IH]; [reflexivity|].
  cbn [map length]. rewrite IH. reflexivity.
Qed.

Local Ltac underlay_step Hbox Hempty :=
  cbn -[isEmpty tilesOf gridOf tileCount nodeCount setFromObject];
  rewrite ?Hbox;
  cbn -[isEmpty tilesOf gridOf tileCount nodeCount setFromObject];
  rewrite ?Hempty;
  cbn -[isEmpty tilesOf gridOf tileCount nodeCount setFromObject].

(** X15. Running the map-underlay effect again with the same inputs leaves
    the refs as the first run left them and asks the loader for the same
    tiles once more: the tiles of the earlier run are removed, never
    added to. When its guard passes, the scene holds either no underlay
    (the overlay is off, or the box of the geometry is empty) or one
    group with one quad per requested tile, 301 nodes at most. The effect
    leaves the sun light, the mesh group, the other two helpers and the
    sky alone. *)
Theorem map_underlay_rerun (showMapUnderlay : bool) (geometryData : option ApiResponse)
    (r : Refs) :
  let res := effect showMapUnderlay geometryData r in
  let again := effect showMapUnderlay geometryData (refs res) in
  refs again = refs res
  /\ requests again = requests res
  /\ warnings again = warnings res
  /\ (is_Some (sceneRef r) -> is_Some (meshGroupRef r) ->
      is_Some (originOf geometryData) ->
      (mapNodes (refs res) <= 301)%nat
      /\ mapNodes (refs res)
         = (if bool_decide (is_Some (mapGroupRef (refs res)))
            then S (length (requests res)) else 0%nat)
      /\ (showMapUnderlay = false -> mapGroupRef (refs res) = None))
  /\ sunLightRef (refs res) = sunLightRef r
  /\ meshGroupRef (refs res) = meshGroupRef r
  /\ solarHelperRef (refs res) = solarHelperRef r
  /\ windHelperRef (refs res) = windHelperRef r
  /\ solarNodes (refs res) = solarNodes r
  /\ windNodes (refs res) = windNodes r
  /\ background <$> sceneRef (refs res) = background <$> sceneRef r.
Proof.
  cbv zeta. unfold effect, mapUnderlayEffect, windNodes, solarNodes, mapNodes.
  destruct r as [[[sa wa ma bg]|] [mg|] light solar wind mapg];
    cbn [sceneRef meshGroupRef mapGroupRef sunLightRef solarHelperRef windHelperRef refs];
    try (repeat split; try reflexivity; exfalso;
         match goal with H : is_Some None |- _ => destruct H as [? E]; discriminate E end).
  destruct (originOf geometryData) as [[lat lon]|];
    cbn [sceneRef meshGroupRef mapGroupRef sunLightRef solarHelperRef windHelperRef refs];
    [|repeat split; try reflexivity; exfalso;
      match goal with H : is_Some None |- _ => destruct H as [? E]; discriminate E end].
  destruct showMapUnderlay.
  - destruct (setFromObject mg) as [|mn mx] eqn:Hbox.
    + destruct mapg; underlay_step Hbox Hbox; repeat split; try reflexivity; lia.
    + destruct (isEmpty (Box mn mx)) eqn:Hempty.
      * destruct mapg; underlay_step Hbox Hempty; repeat split; try reflexivity; lia.
      * set (g := gridOf Math_cos Math_tan Math_log Math_log2 Math_PI lat lon mn mx).
        destruct (tilesOf_spec g) as (Hcap & _ & _).
        destruct mapg; underlay_step Hbox Hempty; rewrite ?nodeCount_tile_group; fold g;
          repeat split; try reflexivity; try lia; discriminate.
  - destruct mapg; cbn; repeat split; try reflexivity; lia.
Qed.

End UnderlayRerun.

Lemma map_underlay_rerun_witness :
  let res := Tiles.mapUnderlayEffect Tiles.cosAtEquator Tiles.tanAtEquator Tiles.logOfOne
               Tiles.log2Wide 3.14159 true (Some Tiles.atEquator) Tiles.wideRefs in
  (Slots.mapNodes (Tiles.refs res) <= 301)%nat.
Proof.
  apply (proj1 (proj2 (proj2 (proj2
           (map_underlay_rerun Tiles.cosAtEquator Tiles.tanAtEquator Tiles.logOfOne
              Tiles.log2Wide 3.14159 true (Some Tiles.atEquator) Tiles.wideRefs)))));
    cbn; eauto.
Defined.

Lemma underlay_never_below_49_witness :
  (49 <= length (Tiles.tilesOf TileFacts.smallGrid))%nat.
Proof.
  apply (underlay_never_below_49 Tiles.cosAtEquator Tiles.tanAtEquator Tiles.logOfOne
           Tiles.log2Wide 3.14159 0 10 (mkVector3 0 0 0) (mkVector3 200 10 200));
    reflexivity.
Defined.

Lemma underlay_covers_site_witness :
  exists t, t ∈ Tiles.tilesOf TileFacts.smallGrid
            /\ TileFacts.covers (Tiles.metersPerPixel TileFacts.smallGrid) t 100 100.
Proof.
  apply (underlay_covers_site Tiles.cosAtEquator Tiles.tanAtEquator Tiles.logOfOne
           Tiles.log2Wide 3.14159 0 10 (mkVector3 0 0 0) (mkVector3 200 10 200) 100 100);
    [reflexivity | vm_compute; discriminate | split; vm_compute; discriminate
    | split; vm_compute; discriminate].
Defined.

(** ** The forecast behind the climate overlay *)

Section ForecastMapping.
Import ClimateService.

Lemma mapFrom_Some {A B} (f : nat -> A -> option B) (k : nat) (l : list A) (bs : list B) :
  mapFrom f k l = Some bs ->
  length bs = length l
  /\ forall i a, l !! i = Some a -> exists b, f (k + i)%nat a = Some b /\ bs !! i = Some b.
Proof.
  revert k bs. induction l as [|x l IH]; intros k bs; cbn [mapFrom].
  - intros [= <-]. split; [reflexivity|]. intros i a H. discriminate H.
  - destruct (f k x) as [b|] eqn:Hb; cbn; [|discriminate].
    destruct (mapFrom f (S k) l) as [bs'|] eqn:Hbs; cbn; [|discriminate].
    intros [= <-]. destruct (IH _ _ Hbs) as [Hlen Hat]. split; [cbn; now rewrite Hlen|].
    intros [|i] a Ha; cbn in Ha.
    + injection Ha as ->. exists b. rewrite Nat.add_0_r. split; [exact Hb | reflexivity].
    + destruct (Hat i a Ha) as (b' & Hf & Hi). exists b'.
      replace (k + S i)%nat with (S k + i)%nat by lia. split; [exact Hf | exact Hi].
Qed.

Lemma mapFrom_None {A B} (f : nat -> A -> option B) (k : nat) (l : list A) :
  mapFrom f k l = None <-> exists i a, l !! i = Some a /\ f (k + i)%nat a = None.
Proof.
  revert k. induction l as [|x l IH]; intros k; cbn [mapFrom].
  - split; [discriminate | intros (i & a & H & _); discriminate H].
  - destruct (f k x) as [b|] eqn:Hb; cbn.
    + destruct (mapFrom f (S k) l) as [bs'|] eqn:Hbs; cbn.
      * split; [discriminate|]. intros ([|i] & a & Ha & Hf); cbn in Ha.
        -- injection Ha as ->. rewrite Nat.add_0_r in Hf. congruence.
        -- assert (Hnone : mapFrom f (S k) l = None).
           { apply IH. exists i, a. split; [exact Ha|].
             now replace (S k + i)%nat with (k + S i)%nat by lia. }
           congruence.
      * split; [|reflexivity]. intros _. apply IH in Hbs as (i & a & Ha & Hf).
        exists (S i), a. split; [exact Ha|].
        now replace (k + S i)%nat with (S k + i)%nat by lia.
    + split; [|reflexivity]. intros _. exists 0%nat, x. rewrite Nat.add_0_r.
      split; [reflexivity | exact Hb].
Qed.

(** X16. When [fetchClimateData] answers with data, the body had both
    [current_weather] and [hourly], the current conditions are copied
    from the first, and the hourly list has one entry for each entry of
    [hourly.time], in order: entry [i] carries time [i] and the values at
    index [i] of the four parallel arrays. An array shorter than the time
    array does not fail: the field of the entries beyond its end is
    undefined. *)
Theorem forecast_entries (fetched : Fetched) (res : Result) :
  fetchClimateData fetched = Some res ->
  exists data h times,
    fetched = Parsed (Some data)
    /\ current_weather data = Some (r_current res)
    /\ ClimateService.hourly data = Some h /\ time h = Some times
    /\ length (r_hourly res) = length times
    /\ forall i t, times !! i = Some t ->
       exists temps speeds dirs codes,
         temperature_2m h = Some temps /\ windspeed_10m h = Some speeds
         /\ winddirection_10m h = Some dirs /\ weathercode h = Some codes
         /\ r_hourly res !! i
            = Some (mkSample t (temps !! i) (speeds !! i) (dirs !! i) (codes !! i)).
Proof.
  unfold fetchClimateData. destruct fetched as [|[data|]]; try discriminate.
  destruct (current_weather data) as [cw|] eqn:Hcw; [|discriminate].
  destruct (ClimateService.hourly data) as [h|] eqn:Hh; [|discriminate].
  destruct (time h) as [times|] eqn:Ht; cbn; [|discriminate].
  destruct (mapFrom (sampleAt h) 0 times) as [hourlyData|] eqn:Hmap; cbn; [|discriminate].
  intros [= <-]. exists data, h, times. cbn [r_current r_hourly].
  destruct (mapFrom_Some _ _ _ _ Hmap) as [Hlen Hat].
  repeat split; try assumption; try reflexivity.
  intros i t Hi. destruct (Hat i t Hi) as (b & Hb & Hbi). cbn in Hb.
  unfold sampleAt in Hb.
  destruct (temperature_2m h) as [temps|]; [|discriminate].
  destruct (windspeed_10m h) as [speeds|]; [|discriminate].
  destruct (winddirection_10m h) as [dirs|]; [|discriminate].
  destruct (weathercode h) as [codes|]; [|discriminate].
  cbn in Hb. injection Hb as <-. exists temps, speeds, dirs, codes.
  repeat split. exact Hbi.
Qed.

(** X17. [fetchClimateData] answers [null] in exactly these cases: the
    request or the parsing of its body throws; the body is [null]; it
    lacks [current_weather] or [hourly]; [hourly.time] is missing; or
    [hourly.time] has an entry and one of the four parallel arrays is
    missing. With an empty [hourly.time] the missing arrays are never
    read, and the answer is data with no hourly entries. *)
Theorem forecast_null_cases (fetched : Fetched) :
  fetchClimateData fetched = None
  <-> match fetched with
      | FetchThrows | Parsed None => True
      | Parsed (Some data) =>
          current_weather data = None \/ ClimateService.hourly data = None
          \/ exists h, ClimateService.hourly data = Some h
               /\ (time h = None
                   \/ (exists t ts, time h = Some (t :: ts))
                      /\ (temperature_2m h = None \/ windspeed_10m h = None
                          \/ winddirection_10m h = None \/ weathercode h = None))
      end.
Proof.
  unfold fetchClimateData. destruct fetched as [|[data|]]; [easy | | easy].
  destruct (current_weather data) as [cw|]; [|split; [intros _; now left | reflexivity]].
  destruct (ClimateService.hourly data) as [h|];
    [|split; [intros _; right; now left | reflexivity]].
  destruct (time h) as [times|] eqn:Ht; cbn.
  - destruct (mapFrom (sampleAt h) 0 times) as [hourlyData|] eqn:Hmap; cbn.
    + split; [discriminate|].
      intros [H|[H|(h' & [= <-] & [H|[(t & ts & Hts) Hmiss]])]]; try discriminate;
        try congruence.
      exfalso. rewrite Ht in Hts. injection Hts as ->.
      destruct (proj2 (mapFrom_Some _ _ _ _ Hmap) 0%nat t eq_refl) as (b & Hb & _).
      cbn in Hb. unfold sampleAt in Hb.
      destruct (temperature_2m h); [|discriminate].
      destruct (windspeed_10m h); [|discriminate].
      destruct (winddirection_10m h); [|discriminate].
      destruct (weathercode h); [|discriminate].
      destruct Hmiss as [H|[H|[H|H]]]; discriminate H.
    + split; [|reflexivity]. intros _. right; right. exists h. split; [reflexivity|].
      right. apply mapFrom_None in Hmap as (i & a & Hi & Hf). split.
      * destruct times as [|t ts]; [discriminate Hi|]. now exists t, ts.
      * unfold sampleAt in Hf.
        destruct (temperature_2m h); [|now left].
        destruct (windspeed_10m h); [|right; now left].
        destruct (winddirection_10m h); [|right; right; now left].
        destruct (weathercode h); [discriminate|]. right; right; now right.
  - split; [|reflexivity]. intros _. right; right. exists h. split; [reflexivity | now left].
Qed.

End ForecastMapping.

Lemma forecast_entries_witness :
  exists data h times,
    ClimateService.Parsed (Some ClimateService.shortForecast)
    = ClimateService.Parsed (Some data)
    /\ ClimateService.current_weather data
       = Some (ClimateService.r_current ClimateService.shortResult)
    /\ ClimateService.hourly data = Some h /\ ClimateService.time h = Some times
    /\ length (ClimateService.r_hourly ClimateService.shortResult) = length times
    /\ forall i t, times !! i = Some t ->
       exists temps speeds dirs codes,
         ClimateService.temperature_2m h = Some temps
         /\ ClimateService.windspeed_10m h = Some speeds
         /\ ClimateService.winddirection_10m h = Some dirs
         /\ ClimateService.weathercode h = Some codes
         /\ ClimateService.r_hourly ClimateService.shortResult !! i
            = Some (ClimateService.mkSample t (temps !! i) (speeds !! i) (dirs !! i)
                      (codes !! i)).
Proof.
  apply (forecast_entries (ClimateService.Parsed (Some ClimateService.shortForecast))
           ClimateService.shortResult).
  reflexivity.
Defined.

(** ** The answer of the image service *)

Section ImageService.
Import Capture Gemini.

(** X18. When the service refuses the request (the response is not ok and
    its text can be read), the error reported is always
    [API Error: <status> - <first 100 characters of the body>]. The
    message inside a JSON error body never reaches the caller: the error
    thrown with it is caught by the [catch] around the parsing and
    replaced. *)
Theorem refusal_reports_status_and_body (r : Response) (errorText : string) :
  ok r = false -> text r = Returns errorText ->
  Gemini.generateRender (Returns r)
  = mkRenderResponse false ""
      (Some ("API Error: " ++ pretty (status r) ++ " - "
             ++ String.substring 0 100 errorText)%string).
Proof.
  intros Hok Htext. unfold Gemini.generateRender, andThen, notOk. rewrite Hok, Htext.
  unfold andThen, throwError. destruct (parsedError r) as [message|e]; reflexivity.
Qed.

(** X19. [generateRender] never throws. It reports success exactly when
    the request returned an ok response whose body parses and whose first
    part of the first candidate carries non-empty inline data; the image
    URL is then the data URL of that data, with [image/png] for a missing
    or empty MIME type. Every other course ends in an error response with
    an empty image URL and an error message. *)
Theorem render_success_cases (fetched : Outcome Response) :
  (success (Gemini.generateRender fetched) = true
   <-> exists r body imageData mime,
         fetched = Returns r /\ ok r = true /\ json r = Returns (Some body)
         /\ firstInline body = Some (mkInlineData (Some imageData) mime)
         /\ imageData <> ""
         /\ Gemini.generateRender fetched
            = mkRenderResponse true
                ("data:" ++ orElse mime "image/png" ++ ";base64," ++ imageData)%string None)
  /\ (success (Gemini.generateRender fetched) = false ->
      imageUrl (Gemini.generateRender fetched) = ""
      /\ is_Some (error (Gemini.generateRender fetched))).
Proof.
  unfold Gemini.generateRender, andThen.
  destruct fetched as [r|e]; cbn.
  2:{ split; [split; [discriminate | intros (? & ? & ? & ? & H & _); discriminate H]|].
      intros _. split; [reflexivity | eauto]. }
  destruct (ok r) eqn:Hok.
  - unfold extract, andThen.
    destruct (json r) as [[body|]|e] eqn:Hjson; cbn.
    + destruct (firstInline body) as [[[[|c rest]|] mime]|] eqn:Hinline; cbn.
      * split; [split; [discriminate|]|intros _; split; [reflexivity | eauto]].
        intros (r' & body' & d & mime' & [= <-] & _ & Hj & Hi & Hd & _).
        rewrite Hjson in Hj. injection Hj as <-. rewrite Hinline in Hi.
        injection Hi as <- <-. now destruct Hd.
      * split; [|discriminate]. split; [intros _|reflexivity].
        exists r, body, (String c rest), mime. repeat split; try assumption; try reflexivity.
        discriminate.
      * split; [split; [discriminate|]|intros _; split; [reflexivity | eauto]].
        intros (r' & body' & d & mime' & [= <-] & _ & Hj & Hi & _).
        rewrite Hjson in Hj. injection Hj as <-. rewrite Hinline in Hi. discriminate Hi.
      * split; [split; [discriminate|]|intros _; split; [reflexivity | eauto]].
        intros (r' & body' & d & mime' & [= <-] & _ & Hj & Hi & _).
        rewrite Hjson in Hj. injection Hj as <-. rewrite Hinline in Hi. discriminate Hi.
    + split; [split; [discriminate|]|intros _; split; [reflexivity | eauto]].
      intros (r' & body' & d & mime' & [= <-] & _ & Hj & _).
      rewrite Hjson in Hj. discriminate Hj.
    + split; [split; [discriminate|]|intros _; split; [reflexivity | eauto]].
      intros (r' & body' & d & mime' & [= <-] & _ & Hj & _).
      rewrite Hjson in Hj. discriminate Hj.
  - assert (Hrefused : success match notOk r with
                               | Returns response => response
                               | Throws message =>
                                   mkRenderResponse false ""
                                     (Some (default "Unknown rendering error" message))
                               end = false
                       /\ imageUrl match notOk r with
                                   | Returns response => response
                                   | Throws message =>
                                       mkRenderResponse false ""
                                         (Some (default "Unknown rendering error" message))
                                   end = ""
                       /\ is_Some (error match notOk r with
                                         | Returns response => response
                                         | Throws message =>
                                             mkRenderResponse false ""
                                               (Some (default "Unknown rendering error"
                                                        message))
                                         end)).
    { unfold notOk, andThen, throwError.
      destruct (text r) as [errorText|e]; cbn; [|repeat split; eauto].
      destruct (parsedError r) as [message|e]; cbn; repeat split; eauto. }
    destruct Hrefused as (Hs & Hu & He). rewrite Hs. split; [|intros _; now split].
    split; [discriminate|]. intros (r' & _ & _ & _ & [= <-] & Hok' & _). congruence.
Qed.

End ImageService.

Lemma refusal_reports_status_and_body_witness :
  Gemini.generateRender (Capture.Returns Gemini.quotaExceeded)
  = Capture.mkRenderResponse false ""
      (Some "API Error: 429 - {error: {message: Quota exceeded}}").
Proof.
  apply (refusal_reports_status_and_body Gemini.quotaExceeded
           "{error: {message: Quota exceeded}}"); reflexivity.
Defined.

Lemma render_success_cases_witness :
  Capture.success (Gemini.generateRender (Capture.Returns GeminiFacts.imageAnswer)) = true.
Proof.
  apply (proj2 (proj1 (render_success_cases (Capture.Returns GeminiFacts.imageAnswer)))).
  eexists _, _, _, _. repeat split; try reflexivity. discriminate.
Defined.

(** ** The comparison slider *)

Section Slider.
Import JS Panel.
Local Open Scope Q_scope.

Lemma Math_max_cases (a b : Q) :
  (a <= b /\ Math_max a b = b) \/ (b < a /\ Math_max a b = a).
Proof.
  unfold Math_max. destruct (Qle_bool a b) eqn:H.
  - left. split; [now apply Qle_bool_iff | reflexivity].
  - right. split; [|reflexivity]. apply Qnot_le_lt. intros Hle.
    apply Qle_bool_iff in Hle. congruence.
Qed.

Lemma Math_min_cases (a b : Q) :
  (a <= b /\ Math_min a b = a) \/ (b < a /\ Math_min a b = b).
Proof.
  unfold Math_min. destruct (Qle_bool a b) eqn:H.
  - left. split; [now apply Qle_bool_iff | reflexivity].
  - right. split; [|reflexivity]. apply Qnot_le_lt. intros Hle.
    apply Qle_bool_iff in Hle. congruence.
Qed.

(** X20. For a slider of positive width, [handleSliderMove] sets a
    position between 0 and 100: 0 for a pointer at or left of the slider,
    100 for one at or right of it, and in between the percentage of the
    width at which the pointer stands, so that the divider is drawn under
    the pointer. Without the slider element the position is kept. *)
Theorem slider_follows_pointer (rect : Rect) (clientX sliderPosition : Q) :
  0 < width rect ->
  let p := handleSliderMove (Some rect) clientX sliderPosition in
  0 <= p /\ p <= 100
  /\ (clientX <= left rect -> p == 0)
  /\ (left rect + width rect <= clientX -> p == 100)
  /\ (left rect <= clientX /\ clientX <= left rect + width rect ->
      left rect + (p / 100) * width rect == clientX)
  /\ handleSliderMove None clientX sliderPosition = sliderPosition.
Proof.
  intros Hw p. subst p. cbn [handleSliderMove].
  set (position := (clientX - left rect) / width rect * 100).
  assert (Hnz : ~ width rect == 0).
  { intros E. rewrite E in Hw. exact (Qlt_irrefl _ Hw). }
  assert (Hx : clientX == left rect + position / 100 * width rect).
  { unfold position. field. exact Hnz. }
  assert (Hscale : forall a b, a <= b -> a / width rect * 100 <= b / width rect * 100).
  { intros a b Hab. apply Qmult_le_compat_r; [|discriminate].
    apply Qmult_le_compat_r; [exact Hab|]. apply Qinv_le_0_compat, Qlt_le_weak, Hw. }
  assert (Hlow : clientX <= left rect -> position <= 0).
  { intros H. unfold position.
    apply Qle_trans with (0 / width rect * 100); [|apply Qle_lteq; right; field; exact Hnz].
    apply Hscale. apply (Qplus_le_l _ _ (left rect)).
    apply Qle_trans with clientX; [apply Qle_lteq; right; ring|].
    apply Qle_trans with (left rect); [exact H | apply Qle_lteq; right; ring]. }
  assert (Hmid : left rect <= clientX -> 0 <= position).
  { intros H. unfold position.
    apply Qle_trans with (0 / width rect * 100); [apply Qle_lteq; right; field; exact Hnz|].
    apply Hscale. apply (Qplus_le_l _ _ (left rect)).
    apply Qle_trans with (left rect); [apply Qle_lteq; right; ring|].
    apply Qle_trans with clientX; [exact H | apply Qle_lteq; right; ring]. }
  assert (Hhigh : left rect + width rect <= clientX -> 100 <= position).
  { intros H. unfold position.
    apply Qle_trans with (width rect / width rect * 100);
      [apply Qle_lteq; right; field; exact Hnz|].
    apply Hscale. apply (Qplus_le_l _ _ (left rect)).
    apply Qle_trans with (left rect + width rect); [apply Qle_lteq; right; ring|].
    apply Qle_trans with clientX; [exact H | apply Qle_lteq; right; ring]. }
  assert (Hin : clientX <= left rect + width rect -> position <= 100).
  { intros H. unfold position.
    apply Qle_trans with (width rect / width rect * 100);
      [|apply Qle_lteq; right; field; exact Hnz].
    apply Hscale. apply (Qplus_le_l _ _ (left rect)).
    apply Qle_trans with clientX; [apply Qle_lteq; right; ring|].
    apply Qle_trans with (left rect + width rect); [exact H | apply Qle_lteq; right; ring]. }
  clearbody position.
  destruct (Math_max_cases 0 position) as [[H0 ->]|[H0 ->]];
    [destruct (Math_min_cases 100 position) as [[H1 ->]|[H1 ->]]
    |destruct (Math_min_cases 100 0) as [[H1 ->]|[H1 ->]]].
  - repeat split; try reflexivity; try discriminate.
    + intros H. apply Hlow in H. exfalso.
      apply (Qlt_irrefl 0). apply Qlt_le_trans with 100; [reflexivity|].
      eapply Qle_trans; eassumption.
    + intros [_ H]. apply Hin in H.
      assert (E : position == 100) by (apply Qle_antisym; assumption).
      rewrite Hx, E. reflexivity.
  - repeat split; try reflexivity; try assumption.
    + apply Qlt_le_weak, H1.
    + intros H. apply Qle_antisym; [apply Hlow, H | exact H0].
    + intros H. apply Qle_antisym; [apply Qlt_le_weak, H1 | apply Hhigh, H].
    + intros _. symmetry. exact Hx.
  - exfalso. apply H1. reflexivity.
  - repeat split; try reflexivity; try discriminate.
    + intros H. apply Hhigh in H. exfalso. apply (Qlt_irrefl 0).
      apply Qlt_le_trans with 100; [reflexivity|].
      apply Qle_trans with position; [exact H | apply Qlt_le_weak, H0].
    + intros [H _]. apply Hmid in H. exfalso. apply (Qlt_irrefl 0).
      eapply Qle_lt_trans; eassumption.
Qed.

End Slider.

Lemma slider_follows_pointer_witness :
  Panel.handleSliderMove (Some Panel.sliderRect) 700 50 == 100.
Proof.
  apply (proj1 (proj2 (proj2 (proj2
           (slider_follows_pointer Panel.sliderRect 700 50 eq_refl))))).
  vm_compute. discriminate.
Defined.

(** ** The prompt of a render *)

Section Prompt.
Import Panel.

Variable numberToString : Q -> string.

Let prompt := smartPrompt numberToString.
Let open := handleOpenPromptEditor numberToString.

Lemma default_prompt_not_empty (locationName : option string)
    (geometryData : option ApiResponse) :
  generateDefaultPrompt numberToString locationName geometryData <> "".
Proof.
  unfold generateDefaultPrompt.
  destruct locationName as [[|c name]|], (originOf geometryData) as [[lat lon]|];
    cbn; discriminate.
Qed.

Lemma orString_not_empty (s d : string) : s <> "" -> orString s d = s.
Proof. destruct s; [congruence | reflexivity]. Qed.

(** X21. The prompt sent with a render is never empty. Opening the editor
    and saving it, with or without an edit to a text that is not empty,
    pins the prompt: the text saved is what is sent, whatever the location
    name and the origin are when the render starts, as long as the
    override is not cleared. Saving an empty text, like the reset on new
    geometry, returns to the generated prompt. *)
Theorem prompt_editor_round_trip (locationName : option string)
    (geometryData : option ApiResponse) (p : PromptState) :
  let sent := prompt locationName geometryData p in
  sent <> ""
  /\ (forall locationName' geometryData',
        prompt locationName' geometryData'
               (handleSavePrompt (open locationName geometryData p)) = sent)
  /\ (forall text locationName' geometryData',
        text <> "" ->
        prompt locationName' geometryData'
               (handleSavePrompt (editPrompt text (open locationName geometryData p)))
        = text)
  /\ (forall locationName' geometryData',
        prompt locationName' geometryData'
               (handleSavePrompt (editPrompt "" (open locationName geometryData p)))
        = generateDefaultPrompt numberToString locationName' geometryData')
  /\ (forall locationName' geometryData',
        prompt locationName' geometryData' (resetPrompt p)
        = generateDefaultPrompt numberToString locationName' geometryData').
Proof.
  cbv zeta. unfold prompt, open.
  assert (Hsent : smartPrompt numberToString locationName geometryData p <> "").
  { unfold smartPrompt. destruct (promptOverride p) as [|c s]; cbn; [|discriminate].
    apply default_prompt_not_empty. }
  split; [exact Hsent|]. split; [|split; [|split]].
  - intros locationName' geometryData'. unfold smartPrompt at 1.
    cbn [handleSavePrompt handleOpenPromptEditor promptOverride tempPrompt].
    apply orString_not_empty, Hsent.
  - intros text locationName' geometryData' Htext. unfold smartPrompt at 1.
    cbn [handleSavePrompt editPrompt promptOverride tempPrompt].
    apply orString_not_empty, Htext.
  - reflexivity.
  - reflexivity.
Qed.

End Prompt.

Lemma prompt_editor_round_trip_witness :
  Panel.smartPrompt (fun _ => "0") (Some "Lyon") None
    (Panel.handleSavePrompt
       (Panel.editPrompt "Night view"
          (Panel.handleOpenPromptEditor (fun _ => "0") None None
             (Panel.mkPromptState "" "" false))))
  = "Night view".
Proof.
  apply (proj1 (proj2 (proj2
           (prompt_editor_round_trip (fun _ => "0") None None
              (Panel.mkPromptState "" "" false)))) "Night view" (Some "Lyon") None).
  discriminate.
Defined.

(** ** The analysis buttons *)

Section AnalysisButtons.
Import Capture Panel.

(** X22. The Sun button turns the climate overlay off only when it turns
    the sun study off: turning the sun study on leaves the climate
    overlay as it is, so both can be on together. Two presses of Sun
    bring the sun study back to where it was and always end with the
    climate overlay off. The Sun and Clim buttons leave the shadows, the
    solar path, the map underlay and the time of day alone; new geometry
    switches the sun study, the solar path and the climate overlay off
    and keeps the rest. *)
Theorem sun_button_and_climate (t : Toggles) :
  isClimateEnabled (pressSun t)
  = (if isSunStudyEnabled t then false else isClimateEnabled t)
  /\ isSunStudyEnabled (pressSun (pressSun t)) = isSunStudyEnabled t
  /\ isClimateEnabled (pressSun (pressSun t)) = false
  /\ isSunStudyEnabled (pressSun (pressClimate (resetAnalysis t))) = true
  /\ isClimateEnabled (pressSun (pressClimate (resetAnalysis t))) = true
  /\ pressClimate (pressClimate t) = t
  /\ Forall (fun press =>
              showDefaultShadows (press t) = showDefaultShadows t
              /\ showMapUnderlay (press t) = showMapUnderlay t
              /\ timeOfDay (press t) = timeOfDay t)
            [pressSun; pressClimate; resetAnalysis]
  /\ Forall (fun press => showSolarPath (press t) = showSolarPath t)
            [pressSun; pressClimate]
  /\ isSunStudyEnabled (resetAnalysis t) = false
  /\ showSolarPath (resetAnalysis t) = false
  /\ isClimateEnabled (resetAnalysis t) = false.
Proof.
  destruct t as [sun shadows path climate underlay time]. cbn.
  repeat match goal with |- _ /\ _ => split end;
    try (destruct sun, climate; reflexivity);
    repeat (apply Forall_cons; split; [repeat split; reflexivity|]); apply Forall_nil_2.
Qed.

End AnalysisButtons.

(** ** How a render ends *)

Section RenderOutcome.
Import Scene3D Capture.

Lemma restore_hidden (ref : option Object3D) :
  restoreVisible (option_map obj_visible ref) (option_map (setVisible false) ref) = ref.
Proof. destruct ref as [[k v c]|]; reflexivity. Qed.

(** X23. Without a renderer or with no API key (missing or empty)
    [handleRender] changes nothing. Otherwise it ends on the render tab
    with the rendering flag cleared and the overlay toggles untouched,
    and with exactly one of the two results set: a rendered image or an
    error message. A rendered image is shown only when the frame was
    captured and the service answered with success; the image is then the
    URL of that answer, the preview is the captured frame, and the 3D
    view (renderer size, camera aspect, helper visibility) is back to
    what it was. *)
Theorem render_outcome (rendererRef : bool) (apiKey : option string) (w : World)
    (s : State) :
  let s' := handleRender rendererRef apiKey w s in
  (rendererRef = false \/ apiKey = None \/ apiKey = Some "" -> s' = s)
  /\ (rendererRef = true -> is_Some apiKey -> apiKey <> Some "" ->
      isRendering (ui s') = false
      /\ activeTab (ui s') = tabRender
      /\ toggles (view s') = toggles (view s)
      /\ (renderedImageUrl (ui s') = None <-> is_Some (renderError (ui s')))
      /\ forall url, renderedImageUrl (ui s') = Some url ->
         exists dataUrl result,
           toDataURL w = Returns dataUrl
           /\ Capture.generateRender w = Returns result
           /\ success result = true /\ imageUrl result = url
           /\ originalImageUrl (ui s') = Some dataUrl
           /\ view s' = view s).
Proof.
  cbv zeta. split.
  - unfold handleRender. intros [->|[->| ->]]; [reflexivity | | ].
    + destruct rendererRef; reflexivity.
    + destruct rendererRef; reflexivity.
  - intros -> [key ->] Hkey. unfold handleRender.
    assert (Hguard : negb true || negb (bool_decide (is_Some (Some key)))
                     || bool_decide (Some key = Some "") = false).
    { cbn. apply bool_decide_eq_false. exact Hkey. }
    rewrite Hguard. clear Hguard Hkey key.
    unfold tryCatchFinally, tryBlock, bind, get, call, modifyView, modifyUi, when, ret.
    destruct s as [[size camera scene solar wind tg] u].
    destruct w as [fr td sr fb gr].
    cbn [view ui cameraRef sceneRef solarHelperRef windHelperRef rendererSize toggles
         firstRender toDataURL secondRender fetchBlob Capture.generateRender].
    destruct camera as [aspect|]; cbn;
      [|repeat split; eauto; try discriminate; intros [? H]; discriminate H].
    destruct scene; cbn;
      try (destruct fr as [[]|e1]; cbn;
           [|repeat split; eauto; try discriminate; intros [? H]; discriminate H]);
      (destruct td as [dataUrl|e2]; cbn;
       [|repeat split; eauto; try discriminate; intros [? H]; discriminate H]);
      rewrite !restore_hidden;
      try (destruct sr as [[]|e3]; cbn;
           [|repeat split; eauto; try discriminate; intros [? H]; discriminate H]);
      (destruct fb as [blob|e4]; cbn;
       [|repeat split; eauto; try discriminate; intros [? H]; discriminate H]);
      (destruct gr as [[ok url err]|e5]; cbn;
       [|repeat split; eauto; try discriminate; intros [? H]; discriminate H]);
      destruct ok; cbn.
    all: repeat split; eauto; try discriminate; try (intros [? H]; discriminate H).
    all: intros url' [= <-]; exists dataUrl, (mkRenderResponse true url err);
      repeat split; reflexivity.
Qed.

End RenderOutcome.

Lemma render_outcome_witness :
  Capture.isRendering
    (Capture.ui (Capture.handleRender true (Some "key") Capture.readbackFails Capture.idle))
  = false.
Proof.
  apply (proj2 (render_outcome true (Some "key") Capture.readbackFails Capture.idle));
    [reflexivity | eauto | discriminate].
Defined.

(** ** The coordinates of the selection *)

Section SelectionCoordinates.
Import MapViewer.

(** X24. For a layer whose first ring has [n] points, [getCoords] returns
    [n + 1] coordinates: the points of the ring in order, then the first
    point once more, so that a ring that is not empty comes back closed.
    For an empty first ring the result is not empty: it holds one
    undefined entry. A layer without rings, and a layer whose
    [getLatLngs] throws, give the empty list. *)
Theorem coords_close_the_ring (ring : list (Q * Q)) (rest : list (list (Q * Q))) :
  let coords := getCoords (Capture.Returns (Some (ring :: rest))) in
  length coords = S (length ring)
  /\ take (length ring) coords = map Some ring
  /\ last coords = Some (default None (Some <$> head ring))
  /\ (ring = [] <-> coords = [None])
  /\ (ring <> [] <-> Forall is_Some coords)
  /\ getCoords (Capture.Returns (Some [])) = []
  /\ getCoords (Capture.Returns None) = []
  /\ forall message, getCoords (Capture.Throws message) = [].
Proof.
  cbv zeta. cbn [getCoords].
  split; [|split; [|split; [|split; [|split; [|repeat split]]]]].
  - rewrite length_app, length_map. cbn. lia.
  - rewrite take_app_length'; [reflexivity | now rewrite length_map].
  - rewrite last_snoc. destruct ring; reflexivity.
  - destruct ring as [|p ring]; cbn; split; try reflexivity; try congruence.
  - destruct ring as [|p ring]; cbn; split; try congruence.
    + intros H. apply Forall_cons in H as [[? H] _]. discriminate H.
    + intros _. apply Forall_cons. split; [eauto|]. apply Forall_app. split.
      * apply Forall_fmap, Forall_true. intros x. cbn. eauto.
      * apply Forall_cons. split; [eauto | apply Forall_nil_2].
Qed.

End SelectionCoordinates.
